(** * Vehicle maintenance manager: the offline-first synchronisation engine

    A shallow embedding of the browser client [js/google_sheets.js]
    (revisions 1.0.0 and 1.0.4) and of the Apps Script backend [gas/code.gs],
    with the properties of the merge algorithm, the retrying API client, the
    sync engine and the row store. *)

From Stdlib Require Import ZArith Lia Ascii String.
From stdpp Require Import base decidable countable numbers strings gmap fin_maps list.

Open Scope string_scope.
Open Scope list_scope.
Open Scope Z_scope.

(** ** Data model *)

(** A primitive value as [JSON.parse] produces it in a flat record.  Numbers
    are integers here: identifiers, years, mileages and epoch milliseconds. *)
Inductive value : Type :=
| VNull
| VBool (b : bool)
| VNum (n : Z)
| VStr (s : string).

Global Instance value_eq_dec : EqDecision value.
Proof. solve_decision. Defined.

Definition value_code (v : value) : unit + bool + (Z + string) :=
  match v with
  | VNull => inl (inl tt)
  | VBool b => inl (inr b)
  | VNum n => inr (inl n)
  | VStr s => inr (inr s)
  end.

Definition value_decode (c : unit + bool + (Z + string)) : value :=
  match c with
  | inl (inl _) => VNull
  | inl (inr b) => VBool b
  | inr (inl n) => VNum n
  | inr (inr s) => VStr s
  end.

Global Instance value_countable : Countable value.
Proof. apply (inj_countable' value_code value_decode). by intros []. Defined.

(** A JS object used as a flat record: field name to value.  A missing field
    reads as [None], the model of [undefined]. *)
Abbreviation record := (gmap string value).

(** [{ ...a, ...b }]: the fields of [b] win, the others come from [a]. *)
Definition spread (a b : record) : record := b ∪ a.

(** JS truthiness of a primitive. *)
Definition truthy (v : value) : bool :=
  match v with
  | VNull => false
  | VBool b => b
  | VNum n => negb (Z.eqb n 0)
  | VStr s => negb (String.eqb s "")
  end.

(** ** Merge algorithm ([mergeData], the same text in every revision) *)

(** [Array.prototype.findIndex]; [None] is the model of [-1]. *)
Fixpoint findIndex {A : Type} (p : A → bool) (l : list A) : option nat :=
  match l with
  | [] => None
  | x :: l' => if p x then Some 0%nat else S <$> findIndex p l'
  end.

(** One turn of the [forEach] callback over the remote items. *)
Definition mergeStep (idField : string) (localIds : gset (option value))
    (merged : list record) (remoteItem : record) : list record :=
  if bool_decide (remoteItem !! idField ∉ localIds) then
    merged ++ [remoteItem]
  else
    match findIndex (λ item, bool_decide (item !! idField = remoteItem !! idField)) merged with
    | Some index => alter (λ m, spread m remoteItem) index merged
    | None => merged
    end.

Definition mergeData (localData remoteData : list record) (idField : string) : list record :=
  let merged := localData in
  let localIds : gset (option value) :=
    list_to_set ((λ item, item !! idField) <$> localData) in
  foldl (mergeStep idField localIds) merged remoteData.

(** The records used by the spec's example. *)
Definition ex_local : record :=
  <["id" := VNum 1]> (<["a" := VStr "x"]> (<["b" := VStr "y"]> ∅)).
Definition ex_remote : record :=
  <["id" := VNum 1]> (<["a" := VStr "z"]> ∅).
Definition ex_merged : record :=
  <["id" := VNum 1]> (<["a" := VStr "z"]> (<["b" := VStr "y"]> ∅)).

Example mergeData_example :
  mergeData [ex_local] [ex_remote] "id" = [ex_merged].
Proof. vm_compute. reflexivity. Qed.

(** ** The client's world: configuration, connectivity, Local Store *)

(** What [response.json()] yields, as far as the client looks at it:
    [result.status], [result.message], [result.error] and [result.data]. *)
Inductive DataField : Type :=
| DataMissing
| DataRows (rows : list record)
| DataOther.

Record Envelope : Type := mkEnvelope {
  env_status : option string;
  env_message : option string;
  env_error : option string;
  env_data : DataField
}.

Inductive ResponseBody : Type :=
| BadJson
| JsonNull
| JsonObject (env : Envelope).

(** The settlement of one [fetch]: rejected (network, DNS, timeout), or a
    response with its status line and body. *)
Inductive FetchOutcome : Type :=
| FetchRejected (message : string)
| FetchResponse (status : Z) (statusText : string) (body : ResponseBody).

Definition response_ok (status : Z) : bool :=
  (200 <=? status) && (status <=? 299).

Record Request : Type := mkRequest {
  req_url : string;
  req_method : string;
  req_json : bool;
  req_body : option record
}.

Global Instance Request_eq_dec : EqDecision Request.
Proof. solve_decision. Defined.

(** Thrown values. *)
Inductive JsError : Type :=
| ErrNotConfigured
| ErrHttp (status : Z) (statusText : string)
| ErrApi (message : string)
| ErrTransport (message : string)
| ErrParse
| ErrType
| ThrownUndefined.

(** [GOOGLE_CONFIG] without the URL, which is assigned at run time. *)
Record Config : Type := mkConfig {
  timeout : Z;
  retryAttempts : nat;
  retryDelay : Z
}.

Definition GOOGLE_CONFIG : Config :=
  {| timeout := 30000; retryAttempts := 3; retryDelay := 1000 |}.

(** [window.APP]: the Local Store (one entry per collection, the last sync
    time, the saved URL), the in-memory mirror, and what the UI was told.
    [localStorage] is taken to accept every write. *)
Record App : Type := mkApp {
  storage : gmap string (list record);
  storedLastSync : option Z;
  storedWebAppUrl : option string;
  state : gmap string (list record);
  toasts : list (string * string);
  loading : bool
}.

Record World : Type := mkWorld {
  webAppUrl : string;
  isOnline : bool;
  lastSyncTime : option Z;
  clock : Z;
  entropy : list string;
  APP : option App
}.

Definition withApp (f : App → App) (w : World) : World :=
  {| webAppUrl := webAppUrl w; isOnline := isOnline w;
     lastSyncTime := lastSyncTime w; clock := clock w;
     entropy := entropy w; APP := f <$> APP w |}.

Definition saveToStorage (key : string) (data : list record) (a : App) : App :=
  {| storage := <[key := data]> (storage a); storedLastSync := storedLastSync a;
     storedWebAppUrl := storedWebAppUrl a; state := state a;
     toasts := toasts a; loading := loading a |}.

Definition saveLastSync (t : Z) (a : App) : App :=
  {| storage := storage a; storedLastSync := Some t;
     storedWebAppUrl := storedWebAppUrl a; state := state a;
     toasts := toasts a; loading := loading a |}.

Definition setState (key : string) (data : list record) (a : App) : App :=
  {| storage := storage a; storedLastSync := storedLastSync a;
     storedWebAppUrl := storedWebAppUrl a; state := <[key := data]> (state a);
     toasts := toasts a; loading := loading a |}.

Definition showToast (message kind : string) (a : App) : App :=
  {| storage := storage a; storedLastSync := storedLastSync a;
     storedWebAppUrl := storedWebAppUrl a; state := state a;
     toasts := toasts a ++ [(message, kind)]; loading := loading a |}.

Definition setLoading (b : bool) (a : App) : App :=
  {| storage := storage a; storedLastSync := storedLastSync a;
     storedWebAppUrl := storedWebAppUrl a; state := state a;
     toasts := toasts a; loading := b |}.

(** [window.APP.getFromStorage(key) || []] *)
Definition getFromStorage (key : string) (a : App) : list record :=
  default [] (storage a !! key).

(** [window.APP ? window.APP.getFromStorage(key) || [] : []] *)
Definition localRows (key : string) (w : World) : list record :=
  match APP w with
  | Some a => getFromStorage key a
  | None => []
  end.

Definition setLastSyncTime (t : Z) (w : World) : World :=
  {| webAppUrl := webAppUrl w; isOnline := isOnline w;
     lastSyncTime := Some t; clock := clock w;
     entropy := entropy w; APP := APP w |}.

Definition tick (ms : Z) (w : World) : World :=
  {| webAppUrl := webAppUrl w; isOnline := isOnline w;
     lastSyncTime := lastSyncTime w; clock := clock w + ms;
     entropy := entropy w; APP := APP w |}.

Definition dropEntropy (w : World) : World :=
  {| webAppUrl := webAppUrl w; isOnline := isOnline w;
     lastSyncTime := lastSyncTime w; clock := clock w;
     entropy := tail (entropy w); APP := APP w |}.

(** ** Asynchronous code

    An [async] function runs on the current world until it returns, throws,
    or reaches an [await] of a [fetch] or of a timer; there it hands back
    the world and a continuation, which is resumed on the world as it is
    when the awaited promise settles. *)
Inductive Completion (A : Type) : Type :=
| Returned (a : A)
| Threw (e : JsError).
Arguments Returned {A} a.
Arguments Threw {A} e.

Inductive Task (A : Type) : Type :=
| Done (w : World) (r : Completion A)
| AwaitFetch (w : World) (req : Request) (k : FetchOutcome → World → Task A)
| AwaitTimer (w : World) (ms : Z) (k : World → Task A).
Arguments Done {A} w r.
Arguments AwaitFetch {A} w req k.
Arguments AwaitTimer {A} w ms k.

Definition Async (A : Type) : Type := World → Task A.

Definition ret {A : Type} (a : A) : Async A := λ w, Done w (Returned a).
Definition throw {A : Type} (e : JsError) : Async A := λ w, Done w (Threw e).

Fixpoint bindTask {A B : Type} (t : Task A) (f : A → Async B) : Task B :=
  match t with
  | Done w (Returned a) => f a w
  | Done w (Threw e) => Done w (Threw e)
  | AwaitFetch w req k => AwaitFetch w req (λ o w', bindTask (k o w') f)
  | AwaitTimer w ms k => AwaitTimer w ms (λ w', bindTask (k w') f)
  end.

Definition bind {A B : Type} (m : Async A) (f : A → Async B) : Async B :=
  λ w, bindTask (m w) f.

Notation "'let*' x ':=' m 'in' k" := (bind m (λ x, k))
  (at level 10, x name, m at level 100, k at level 200).
Notation "m ';;' k" := (bind m (λ _, k))
  (at level 100, k at level 200, right associativity).

(** [try { m } catch (error) { h error }] *)
Fixpoint catchTask {A : Type} (t : Task A) (h : JsError → Async A) : Task A :=
  match t with
  | Done w (Returned a) => Done w (Returned a)
  | Done w (Threw e) => h e w
  | AwaitFetch w req k => AwaitFetch w req (λ o w', catchTask (k o w') h)
  | AwaitTimer w ms k => AwaitTimer w ms (λ w', catchTask (k w') h)
  end.

Definition tryCatch {A : Type} (m : Async A) (h : JsError → Async A) : Async A :=
  λ w, catchTask (m w) h.

(** [try { m } finally { f }] for a synchronous [f] that does not throw. *)
Fixpoint finallyTask {A : Type} (t : Task A) (f : World → World) : Task A :=
  match t with
  | Done w r => Done (f w) r
  | AwaitFetch w req k => AwaitFetch w req (λ o w', finallyTask (k o w') f)
  | AwaitTimer w ms k => AwaitTimer w ms (λ w', finallyTask (k w') f)
  end.

Definition tryFinally {A : Type} (m : Async A) (f : World → World) : Async A :=
  λ w, finallyTask (m w) f.

Definition gets {A : Type} (f : World → A) : Async A := λ w, Done w (Returned (f w)).
Definition modify (f : World → World) : Async unit := λ w, Done (f w) (Returned tt).

(** [await fetch(url, options)] followed by the checks on the response
    object are separate steps in the source; [fetch] here is the first. *)
Definition fetch (req : Request) : Async (Z * string * ResponseBody) :=
  λ w, AwaitFetch w req (λ o w',
    match o with
    | FetchRejected msg => Done w' (Threw (ErrTransport msg))
    | FetchResponse status statusText body => Done w' (Returned (status, statusText, body))
    end).

(** [await new Promise(resolve => setTimeout(resolve, ms))] *)
Definition sleep (ms : Z) : Async unit :=
  λ w, AwaitTimer w ms (λ w', Done w' (Returned tt)).

(** [await response.json()] *)
Definition json (body : ResponseBody) : Async (option Envelope) :=
  match body with
  | BadJson => throw ErrParse
  | JsonNull => ret None
  | JsonObject env => ret (Some env)
  end.

(** ** Platform functions the client relies on *)

(** [Number.prototype.toString(radix)] on an integer, radix 2 to 36. *)
Definition digitChar (d : Z) : ascii :=
  if d <? 10 then ascii_of_nat (Z.to_nat (48 + d))
  else ascii_of_nat (Z.to_nat (87 + d)).

Fixpoint radixDigits (fuel : nat) (radix n : Z) (acc : string) : string :=
  match fuel with
  | O => acc
  | S fuel' =>
      let acc' := String (digitChar (n `mod` radix)) acc in
      if n `div` radix =? 0 then acc' else radixDigits fuel' radix (n `div` radix) acc'
  end.

Definition toStringRadix (radix n : Z) : string :=
  let digits := radixDigits (S (Z.to_nat (Z.log2 (Z.abs n)))) radix (Z.abs n) "" in
  if n <? 0 then String "-" digits else digits.

(** Decimal digits, padded with zeros on the left to [width]. *)
Definition padStart (width : nat) (s : string) : string :=
  String.concat "" (replicate (width - String.length s) "0") +:+ s.

Definition pad (width : nat) (n : Z) : string :=
  padStart width (toStringRadix 10 n).

(** [Date.prototype.toISOString] on epoch milliseconds (proleptic Gregorian
    calendar, UTC). *)
Definition civilFromDays (days : Z) : Z * Z * Z :=
  let z := days + 719468 in
  let era := z `div` 146097 in
  let doe := z - era * 146097 in
  let yoe := (doe - doe `div` 1460 + doe `div` 36524 - doe `div` 146096) `div` 365 in
  let doy := doe - (365 * yoe + yoe `div` 4 - yoe `div` 100) in
  let mp := (5 * doy + 2) `div` 153 in
  let d := doy - (153 * mp + 2) `div` 5 + 1 in
  let m := if mp <? 10 then mp + 3 else mp - 9 in
  let y := yoe + era * 400 + (if m <=? 2 then 1 else 0) in
  (y, m, d).

Definition toISOString (ms : Z) : string :=
  let days := ms `div` 86400000 in
  let rest := ms `mod` 86400000 in
  let '(y, m, d) := civilFromDays days in
  let year :=
    if (0 <=? y) && (y <=? 9999) then pad 4 y
    else if y <? 0 then String "-" (pad 6 (- y))
    else String "+" (pad 6 y) in
  year +:+ "-" +:+ pad 2 m +:+ "-" +:+ pad 2 d +:+ "T"
    +:+ pad 2 (rest `div` 3600000) +:+ ":"
    +:+ pad 2 ((rest `mod` 3600000) `div` 60000) +:+ ":"
    +:+ pad 2 ((rest `mod` 60000) `div` 1000) +:+ "."
    +:+ pad 3 (rest `mod` 1000) +:+ "Z".

Global Arguments toStringRadix : simpl never.
Global Arguments toISOString : simpl never.

(** [window.APP.generateId()]:
    [Date.now().toString(36) + Math.random().toString(36).substr(2)].
    The random digits are the next string of the world's entropy. *)
Definition generateId (w : World) : string :=
  toStringRadix 36 (clock w) +:+ default "" (head (entropy w)).

(** ** API client: the retry loop shared by the revisions

    [for (let attempt = 1; attempt <= retryAttempts; attempt++)] with the
    [try]/[catch] of its body.  [remaining] counts the turns still allowed,
    [retryAttempts + 1 - attempt]; [once] is the body of the [try]. *)
Fixpoint retryLoop {A : Type} (cfg : Config) (once : Async A)
    (remaining attempt : nat) (lastError : JsError) : Async A :=
  match remaining with
  | O => throw lastError
  | S remaining' =>
      tryCatch once
        (λ error,
           (if (attempt <? retryAttempts cfg)%nat
            then sleep (retryDelay cfg * Z.of_nat attempt)
            else ret tt) ;;
           retryLoop cfg once remaining' (S attempt) error)
  end.

(** [{ key: id, ...data, created_date, last_updated }] and the like: the
    literal's fields in source order, later ones winning. *)
Definition stamp (fields : list (string * value)) (r : record) : record :=
  foldl (λ acc kv, <[kv.1 := kv.2]> acc) r fields.

(** [window.APP ? window.APP.generateId() : Date.now().toString()] *)
Definition freshId (w : World) : string :=
  match APP w with
  | Some _ => generateId w
  | None => toStringRadix 10 (clock w)
  end.

Definition takeId : Async string :=
  λ w, Done (match APP w with Some _ => dropEntropy w | None => w end)
            (Returned (freshId w)).

(** Save a collection and mirror it, when [window.APP] is there. *)
Definition persist (key : string) (rows : list record) : Async unit :=
  modify (withApp (λ a, setState key rows (saveToStorage key rows a))).

Definition configured (w : World) : bool := negb (String.eqb (webAppUrl w) "").

Global Arguments generateId : simpl never.
Global Arguments mergeData : simpl never.
Global Arguments configured : simpl never.

(** *** Revision 1.0.4 of [google_sheets.js] *)
Module V104.

Definition attemptOnce (req : Request) : Async Envelope :=
  let* response := fetch req in
  let '(status, statusText, body) := response in
  if negb (response_ok status) then throw (ErrHttp status statusText)
  else
    let* result := json body in
    match result with
    | None => throw ErrType
    | Some env =>
        if bool_decide (env_status env = Some "error") then
          throw (ErrApi (match env_message env with
                         | Some msg => if String.eqb msg "" then "Unknown API error" else msg
                         | None => "Unknown API error"
                         end))
        else ret env
    end.

Definition buildRequest (url action method : string) (data : option record) : Request :=
  if bool_decide (method = "POST") && bool_decide (is_Some data) then
    {| req_url := url +:+ "?action=" +:+ action; req_method := "POST";
       req_json := true; req_body := data |}
  else if negb (String.eqb action "") then
    {| req_url := url +:+ "?action=" +:+ action; req_method := "GET";
       req_json := false; req_body := None |}
  else
    {| req_url := url; req_method := "GET"; req_json := false; req_body := None |}.

Definition makeApiRequest (cfg : Config) (action method : string) (data : option record)
  : Async Envelope :=
  let* url := gets webAppUrl in
  if String.eqb url "" then throw ErrNotConfigured
  else
    retryLoop cfg (attemptOnce (buildRequest url action method data))
      (retryAttempts cfg) 1 ThrownUndefined.

Definition addVehicle (cfg : Config) (vehicleData : record) : Async record :=
  tryCatch
    (let* vehicleId := takeId in
     let* now := gets clock in
     let vehicle :=
       stamp [("created_date", VStr (toISOString now));
              ("last_updated", VStr (toISOString now))]
         (spread {["vehicle_id" := VStr vehicleId]} vehicleData) in
     let* online := gets (λ w, isOnline w && configured w) in
     (if online then
        tryCatch (makeApiRequest cfg "vehicles" "POST" (Some vehicle) ;; ret tt)
                 (λ _, ret tt)
      else ret tt) ;;
     let* vehicles := gets (localRows "vehicles") in
     persist "vehicles" (vehicles ++ [vehicle]) ;;
     ret vehicle)
    (λ error, throw error).

Definition syncVehicles (cfg : Config) : Async unit :=
  tryCatch
    (let* response := makeApiRequest cfg "vehicles" "GET" None in
     match env_data response with
     | DataRows rows =>
         let* localVehicles := gets (localRows "vehicles") in
         let mergedVehicles := mergeData localVehicles rows "vehicle_id" in
         persist "vehicles" mergedVehicles
     | _ => ret tt
     end)
    (λ error, throw error).

Definition syncData (cfg : Config) : Async bool :=
  let* ready := gets (λ w, isOnline w && configured w) in
  if negb ready then ret false
  else
    tryFinally
      (tryCatch
         (modify (withApp (setLoading true)) ;;
          makeApiRequest cfg "" "GET" None ;;
          syncVehicles cfg ;;
          let* now := gets clock in
          modify (setLastSyncTime now) ;;
          modify (withApp (saveLastSync now)) ;;
          modify (withApp (showToast "Data synchronized successfully" "success")) ;;
          ret true)
         (λ _,
            modify (withApp (showToast "Sync failed - working offline" "warning")) ;;
            ret false))
      (withApp (setLoading false)).

End V104.

(** *** Revision 1.0.0 of [google_sheets.js] *)
Module V100.

Definition attemptOnce (req : Request) : Async Envelope :=
  let* response := fetch req in
  let '(status, statusText, body) := response in
  if negb (response_ok status) then throw (ErrHttp status statusText)
  else
    let* result := json body in
    match result with
    | None => throw ErrType
    | Some env =>
        match env_error env with
        | Some msg => if String.eqb msg "" then ret env else throw (ErrApi msg)
        | None => ret env
        end
    end.

Definition buildRequest (url endpoint method : string) (data : option record) : Request :=
  {| req_url := url +:+ endpoint; req_method := method; req_json := true;
     req_body :=
       if bool_decide (method = "POST") || bool_decide (method = "PUT")
       then data else None |}.

Definition makeApiRequest (cfg : Config) (endpoint method : string) (data : option record)
  : Async Envelope :=
  let* url := gets webAppUrl in
  if String.eqb url "" then throw ErrNotConfigured
  else
    retryLoop cfg (attemptOnce (buildRequest url endpoint method data))
      (retryAttempts cfg) 1 ThrownUndefined.

(** [lastSync ? `?since=${lastSync}` : ''] *)
Definition sinceQuery (lastSync : option Z) : string :=
  match lastSync with
  | Some t => if t =? 0 then "" else "?since=" +:+ toStringRadix 10 t
  | None => ""
  end.

(** The four [sync...] functions differ in the endpoint, the storage key
    and the id field only. *)
Definition syncCollection (cfg : Config) (endpoint key idField : string)
    (lastSync : option Z) : Async unit :=
  tryCatch
    (let* response := makeApiRequest cfg (endpoint +:+ sinceQuery lastSync) "GET" None in
     match env_data response with
     | DataRows rows =>
         let* localItems := gets (localRows key) in
         let merged := mergeData localItems rows idField in
         persist key merged
     | _ => ret tt
     end)
    (λ error, throw error).

Definition syncVehicles (cfg : Config) := syncCollection cfg "/vehicles" "vehicles" "vehicle_id".
Definition syncMaintenanceRecords (cfg : Config) :=
  syncCollection cfg "/maintenance" "maintenanceRecords" "log_id".
Definition syncReceipts (cfg : Config) := syncCollection cfg "/receipts" "receipts" "receipt_id".
Definition syncReminders (cfg : Config) := syncCollection cfg "/reminders" "reminders" "reminder_id".

Definition syncData (cfg : Config) : Async bool :=
  let* ready := gets (λ w, isOnline w && configured w) in
  if negb ready then ret false
  else
    tryFinally
      (tryCatch
         (modify (withApp (setLoading true)) ;;
          let* lastSync := gets (λ w, a ← APP w; storedLastSync a) in
          syncVehicles cfg lastSync ;;
          syncMaintenanceRecords cfg lastSync ;;
          syncReceipts cfg lastSync ;;
          syncReminders cfg lastSync ;;
          let* now := gets clock in
          modify (setLastSyncTime now) ;;
          modify (withApp (saveLastSync now)) ;;
          modify (withApp (showToast "Data synchronized successfully" "success")) ;;
          ret true)
         (λ _,
            modify (withApp (showToast "Sync failed - working offline" "warning")) ;;
            ret false))
      (withApp (setLoading false)).

Definition addVehicle (cfg : Config) (vehicleData : record) : Async record :=
  tryCatch
    (let* vehicleId := takeId in
     let* now := gets clock in
     let vehicle :=
       stamp [("created_date", VStr (toISOString now));
              ("last_updated", VStr (toISOString now))]
         (spread {["vehicle_id" := VStr vehicleId]} vehicleData) in
     let* vehicles := gets (localRows "vehicles") in
     persist "vehicles" (vehicles ++ [vehicle]) ;;
     let* online := gets (λ w, isOnline w && configured w) in
     (if online then makeApiRequest cfg "/vehicles" "POST" (Some vehicle) ;; ret tt
      else ret tt) ;;
     ret vehicle)
    (λ error, throw error).

Definition deleteVehicle (cfg : Config) (vehicleId : string) : Async bool :=
  tryCatch
    (let* vehicles := gets (localRows "vehicles") in
     let filteredVehicles :=
       filter (λ v : record, v !! "vehicle_id" ≠ Some (VStr vehicleId)) vehicles in
     persist "vehicles" filteredVehicles ;;
     let* online := gets (λ w, isOnline w && configured w) in
     (if online then
        makeApiRequest cfg ("/vehicles/" +:+ vehicleId) "DELETE" None ;; ret tt
      else ret tt) ;;
     ret true)
    (λ error, throw error).

End V100.

(** ** Backend ([code.gs]): the row store over a sheet *)
Module CodeGs.

(** A cell as [getValues] returns it: a primitive or a [Date]. *)
Inductive cell : Type :=
| CellValue (v : value)
| CellDate (t : Z).

Global Instance cell_eq_dec : EqDecision cell.
Proof. solve_decision. Defined.

(** A sheet set up by [setupSheets]: row 1 holds the column names. *)
Record Sheet : Type := mkSheet {
  header : list string;
  rows : list (list cell)
}.

(** [headers.forEach((header, index) => { obj[header] = row[index]; })].
    A column past the end of the row reads [undefined]. *)
Fixpoint rowObject (headers : list string) (row : list cell) (obj : gmap string cell)
  : gmap string cell :=
  match headers with
  | [] => obj
  | h :: headers' =>
      rowObject headers' (tail row)
        (match head row with
         | Some c => <[h := c]> obj
         | None => delete h obj
         end)
  end.

(** [a >= b] on two [Date] objects; [None] is an invalid date (NaN). *)
Definition dateGe (a b : option Z) : bool :=
  match a, b with
  | Some x, Some y => y <=? x
  | _, _ => false
  end.

Section row_store.
(** [new Date(string)], the parser of the platform. *)
Context (DateParse : string → option Z).

(** [new Date(x)] for a cell [x] or [undefined]. *)
Definition newDate (x : option cell) : option Z :=
  match x with
  | None => None
  | Some (CellDate t) => Some t
  | Some (CellValue (VStr s)) => DateParse s
  | Some (CellValue (VNum n)) =>
      if Z.abs n <=? 8640000000000000 then Some n else None
  | Some (CellValue (VBool b)) => Some (if b then 1 else 0)
  | Some (CellValue VNull) => Some 0
  end.

(** The [since] argument: absent ([None]), or a [Date], possibly invalid. *)
Definition sinceFilter (field : string) (since : option (option Z))
    (obj : gmap string cell) : bool :=
  match since with
  | None => true
  | Some s => dateGe (newDate (obj !! field)) s
  end.

Definition getAllVehicles (sheet : Sheet) (since : option (option Z))
  : list (gmap string cell) :=
  List.filter (sinceFilter "last_updated" since)
    ((λ row, rowObject (header sheet) row ∅) <$> rows sheet).

Definition getAllMaintenance (sheet : Sheet) (since : option (option Z))
  : list (gmap string cell) :=
  match rows sheet with
  | [] => []
  | _ =>
      List.filter (sinceFilter "created_date" since)
        ((λ row, rowObject (header sheet) row ∅) <$> rows sheet)
  end.

Definition getAllReceipts (sheet : Sheet) (since : option (option Z))
  : list (gmap string cell) :=
  match rows sheet with
  | [] => []
  | _ =>
      List.filter (sinceFilter "created_date" since)
        ((λ row, rowObject (header sheet) row ∅) <$> rows sheet)
  end.

Definition getAllReminders (sheet : Sheet) (since : option (option Z))
  : list (gmap string cell) :=
  match rows sheet with
  | [] => []
  | _ =>
      List.filter (sinceFilter "created_date" since)
        ((λ row, rowObject (header sheet) row ∅) <$> rows sheet)
  end.

End row_store.

(** [x || ''] and [x || fallback] on a field of the payload. *)
Definition orElse (fallback : string) (x : option value) : value :=
  match x with
  | Some v => if truthy v then v else VStr fallback
  | None => VStr fallback
  end.

(** An object literal: the fields in source order. *)
Definition object (fields : list (string * value)) : record := stamp fields ∅.

(** [headers.map(header => obj[header] || '')] then [sheet.appendRow]. *)
Definition appendRow (sheet : Sheet) (obj : record) : Sheet :=
  {| header := header sheet;
     rows := rows sheet ++ [(λ h, CellValue (orElse "" (obj !! h))) <$> header sheet] |}.

(** The four [add...] functions.  [uuid] is what [Utilities.getUuid()]
    returns to [generateId()], [now] is the clock of the server. *)
Definition addVehicle (sheet : Sheet) (data : record) (uuid : string) (now : Z)
  : Sheet * record :=
  let vehicle := object
    [("vehicle_id", VStr uuid);
     ("make", orElse "" (data !! "make"));
     ("model", orElse "" (data !! "model"));
     ("year", orElse "" (data !! "year"));
     ("vin", orElse "" (data !! "vin"));
     ("license_plate", orElse "" (data !! "license_plate"));
     ("current_mileage", orElse "" (data !! "current_mileage"));
     ("purchase_date", orElse "" (data !! "purchase_date"));
     ("warranty_expiration", orElse "" (data !! "warranty_expiration"));
     ("insurance_expiration", orElse "" (data !! "insurance_expiration"));
     ("registration_expiration", orElse "" (data !! "registration_expiration"));
     ("created_date", VStr (toISOString now));
     ("last_updated", VStr (toISOString now))] in
  (appendRow sheet vehicle, vehicle).

Definition addMaintenance (sheet : Sheet) (data : record) (uuid : string) (now : Z)
  : Sheet * record :=
  let record := object
    [("log_id", VStr uuid);
     ("vehicle_id", orElse "" (data !! "vehicle_id"));
     ("maintenance_type", orElse "" (data !! "maintenance_type"));
     ("service_date", orElse "" (data !! "service_date"));
     ("mileage", orElse "" (data !! "mileage"));
     ("cost", orElse "" (data !! "cost"));
     ("service_provider", orElse "" (data !! "service_provider"));
     ("description", orElse "" (data !! "description"));
     ("next_service_mileage", orElse "" (data !! "next_service_mileage"));
     ("next_service_date", orElse "" (data !! "next_service_date"));
     ("receipt_id", orElse "" (data !! "receipt_id"));
     ("created_date", VStr (toISOString now))] in
  (appendRow sheet record, record).

Definition addReceipt (sheet : Sheet) (data : record) (uuid : string) (now : Z)
  : Sheet * record :=
  let receipt := object
    [("receipt_id", VStr uuid);
     ("vehicle_id", orElse "" (data !! "vehicle_id"));
     ("log_id", orElse "" (data !! "log_id"));
     ("receipt_date", orElse "" (data !! "receipt_date"));
     ("vendor", orElse "" (data !! "vendor"));
     ("amount", orElse "" (data !! "amount"));
     ("description", orElse "" (data !! "description"));
     ("image_url", orElse "" (data !! "image_url"));
     ("category", orElse "" (data !! "category"));
     ("created_date", VStr (toISOString now))] in
  (appendRow sheet receipt, receipt).

Definition addReminder (sheet : Sheet) (data : record) (uuid : string) (now : Z)
  : Sheet * record :=
  let reminder := object
    [("reminder_id", VStr uuid);
     ("vehicle_id", orElse "" (data !! "vehicle_id"));
     ("reminder_type", orElse "" (data !! "reminder_type"));
     ("due_date", orElse "" (data !! "due_date"));
     ("due_mileage", orElse "" (data !! "due_mileage"));
     ("status", orElse "active" (data !! "status"));
     ("message", orElse "" (data !! "message"));
     ("created_date", VStr (toISOString now))] in
  (appendRow sheet reminder, reminder).

(** The column names [setupSheets] writes. *)
Definition vehicleHeaders : list string :=
  ["vehicle_id"; "make"; "model"; "year"; "vin"; "license_plate";
   "current_mileage"; "purchase_date"; "warranty_expiration";
   "insurance_expiration"; "registration_expiration"; "created_date"; "last_updated"].

Definition maintenanceHeaders : list string :=
  ["log_id"; "vehicle_id"; "maintenance_type"; "service_date"; "mileage";
   "cost"; "service_provider"; "description"; "next_service_mileage";
   "next_service_date"; "receipt_id"; "created_date"].

Definition receiptHeaders : list string :=
  ["receipt_id"; "vehicle_id"; "log_id"; "receipt_date"; "vendor";
   "amount"; "description"; "image_url"; "category"; "created_date"].

Definition reminderHeaders : list string :=
  ["reminder_id"; "vehicle_id"; "reminder_type"; "due_date"; "due_mileage";
   "status"; "message"; "created_date"].

End CodeGs.

(** ** A parser for the timestamps [toISOString] writes

    [YYYY-MM-DDTHH:mm:ss.sssZ]; every other string is left unparsed here. *)
Definition digitValue (c : ascii) : option Z :=
  let n := Z.of_nat (nat_of_ascii c) in
  if (48 <=? n) && (n <=? 57) then Some (n - 48) else None.

Fixpoint digitsValue (s : string) (acc : Z) : option Z :=
  match s with
  | EmptyString => Some acc
  | String c s' =>
      match digitValue c with
      | Some d => digitsValue s' (acc * 10 + d)
      | None => None
      end
  end.

Definition daysFromCivil (y m d : Z) : Z :=
  let y' := if m <=? 2 then y - 1 else y in
  let era := y' `div` 400 in
  let yoe := y' - era * 400 in
  let mp := if 2 <? m then m - 3 else m + 9 in
  let doy := (153 * mp + 2) `div` 5 + d - 1 in
  let doe := yoe * 365 + yoe `div` 4 - yoe `div` 100 + doy in
  era * 146097 + doe - 719468.

Definition parseISO (s : string) : option Z :=
  if negb (Nat.eqb (String.length s) 24) then None
  else if negb (String.eqb (substring 4 1 s) "-" && String.eqb (substring 7 1 s) "-"
                && String.eqb (substring 10 1 s) "T" && String.eqb (substring 13 1 s) ":"
                && String.eqb (substring 16 1 s) ":" && String.eqb (substring 19 1 s) "."
                && String.eqb (substring 23 1 s) "Z") then None
  else
    y ← digitsValue (substring 0 4 s) 0;
    m ← digitsValue (substring 5 2 s) 0;
    d ← digitsValue (substring 8 2 s) 0;
    hh ← digitsValue (substring 11 2 s) 0;
    mm ← digitsValue (substring 14 2 s) 0;
    ss ← digitsValue (substring 17 2 s) 0;
    ms ← digitsValue (substring 20 3 s) 0;
    if (1 <=? m) && (m <=? 12) && (1 <=? d)
       && (daysFromCivil y m d + 1 <=? daysFromCivil y (m + 1) 1)
       && (hh <=? 23) && (mm <=? 59) && (ss <=? 59)
    then Some (daysFromCivil y m d * 86400000 + hh * 3600000 + mm * 60000 + ss * 1000 + ms)
    else None.

(** ** Running tasks *)

(** What the environment saw: the requests sent, in order, and the timers. *)
Record Trace : Type := mkTrace {
  requests : list Request;
  timers : list Z
}.

Definition noTrace : Trace := {| requests := []; timers := [] |}.

(** One task alone on the event loop.  [net n req] settles the [n]-th
    request sent; a timer lets its delay pass on the clock. *)
Fixpoint run {A : Type} (net : nat → Request → FetchOutcome) (t : Task A) (tr : Trace)
  : World * Completion A * Trace :=
  match t with
  | Done w r => (w, r, tr)
  | AwaitFetch w req k =>
      run net (k (net (length (requests tr)) req) w)
        {| requests := requests tr ++ [req]; timers := timers tr |}
  | AwaitTimer w ms k =>
      run net (k (tick ms w))
        {| requests := requests tr; timers := timers tr ++ [ms] |}
  end.

Definition exec {A : Type} (net : nat → Request → FetchOutcome) (m : Async A) (w : World)
  : World * Completion A * Trace :=
  run net (m w) noTrace.

(** ** The event loop: several calls in flight

    A call runs at once up to its first [await]; there it is parked, and
    the request it sent is in flight.  The loop then settles the awaited
    promises one at a time, in any order: the parked task is resumed on the
    world as the other tasks left it. *)
Inductive Parked (A : Type) : Type :=
| Settled (r : Completion A)
| OnFetch (n : nat) (req : Request) (k : FetchOutcome → World → Task A)
| OnTimer (ms : Z) (k : World → Task A).
Arguments Settled {A} r.
Arguments OnFetch {A} n req k.
Arguments OnTimer {A} ms k.

Record Loop (A : Type) : Type := mkLoop {
  world : World;
  tasks : list (Parked A);
  sent : list Request
}.
Arguments mkLoop {A} world tasks sent.
Arguments world {A} l.
Arguments tasks {A} l.
Arguments sent {A} l.

Definition idle {A : Type} (w : World) : Loop A :=
  {| world := w; tasks := []; sent := [] |}.

Definition park {A : Type} (t : Task A) (out : list Request)
  : World * Parked A * list Request :=
  match t with
  | Done w r => (w, Settled r, out)
  | AwaitFetch w req k => (w, OnFetch (length out) req k, out ++ [req])
  | AwaitTimer w ms k => (w, OnTimer ms k, out)
  end.

(** Calling an [async] function from the loop. *)
Definition call {A : Type} (m : Async A) (lp : Loop A) : Loop A :=
  let '(w, p, out) := park (m (world lp)) (sent lp) in
  {| world := w; tasks := tasks lp ++ [p]; sent := out |}.

(** The promise task [i] awaits settles. *)
Definition settle {A : Type} (net : nat → Request → FetchOutcome) (i : nat) (lp : Loop A)
  : Loop A :=
  match tasks lp !! i with
  | Some (OnFetch n req k) =>
      let '(w, p, out) := park (k (net n req) (world lp)) (sent lp) in
      {| world := w; tasks := <[i := p]> (tasks lp); sent := out |}
  | Some (OnTimer ms k) =>
      let '(w, p, out) := park (k (tick ms (world lp))) (sent lp) in
      {| world := w; tasks := <[i := p]> (tasks lp); sent := out |}
  | _ => lp
  end.

Definition settleAll {A : Type} (net : nat → Request → FetchOutcome)
    (schedule : list nat) (lp : Loop A) : Loop A :=
  foldl (λ lp i, settle net i lp) lp schedule.

Definition isSettled {A : Type} (p : Parked A) : bool :=
  match p with
  | Settled _ => true
  | _ => false
  end.

(** The pulls of a collection among the requests sent. *)
Definition pullsOf (url : string) (out : list Request) : nat :=
  length (filter (λ r, req_url r = url) out).

(** ** Facts about the merge *)

(** The merge seen item by item: [patchFirst] is the [else] branch of the
    callback written by recursion on the array. *)
Fixpoint patchFirst (k : string) (M : list record) (r : record) : list record :=
  match M with
  | [] => []
  | m :: M' =>
      if bool_decide (m !! k = r !! k) then spread m r :: M'
      else m :: patchFirst k M' r
  end.

Definition patchAll (k : string) (Rs L : list record) : list record :=
  foldl (patchFirst k) L Rs.

(** All the remote items laid over one local record, in remote order. *)
Definition overlay (Rs : list record) (m : record) : record :=
  foldl spread m Rs.

Definition idOf (k : string) (item : record) : option value := item !! k.

Section merge_facts.
Context (k : string).
Implicit Types (L R M A : list record) (l r m : record) (i : option value).

Lemma spread_id m r : m !! k = r !! k → spread m r !! k = m !! k.
Proof.
  intros E. unfold spread. destruct (r !! k) as [v|] eqn:Hr.
  - rewrite (lookup_union_Some_l r m k v Hr). done.
  - rewrite lookup_union_r by done. done.
Qed.

Lemma findIndex_alter_patchFirst M r :
  match findIndex (λ item, bool_decide (item !! k = r !! k)) M with
  | Some index => alter (λ m, spread m r) index M
  | None => M
  end = patchFirst k M r.
Proof.
  induction M as [|m M IH]; simpl; [done|].
  case_bool_decide; simpl; [done|].
  destruct (findIndex _ M); simpl in *; by rewrite <- IH.
Qed.

Lemma patchFirst_ids M r : idOf k <$> patchFirst k M r = idOf k <$> M.
Proof.
  induction M as [|m M IH]; [done|]. cbn [patchFirst].
  case_bool_decide; rewrite !fmap_cons.
  - unfold idOf at 1 3. by rewrite spread_id.
  - by rewrite IH.
Qed.

Lemma patchFirst_length M r : length (patchFirst k M r) = length M.
Proof.
  rewrite <- (length_fmap (idOf k)), patchFirst_ids. apply length_fmap.
Qed.

Lemma patchFirst_app_l M A r :
  r !! k ∈ idOf k <$> M → patchFirst k (M ++ A) r = patchFirst k M r ++ A.
Proof.
  induction M as [|m M IH]; simpl.
  - by intros ?%elem_of_nil.
  - intros Hin. apply elem_of_cons in Hin.
    case_bool_decide as Hd; simpl; [done|].
    destruct Hin as [E|Hin]; [unfold idOf in E; congruence|].
    by rewrite IH.
Qed.

Lemma patchFirst_app_r M A r :
  r !! k ∉ idOf k <$> M → patchFirst k (M ++ A) r = M ++ patchFirst k A r.
Proof.
  induction M as [|m M IH]; simpl; [done|].
  intros Hn. apply not_elem_of_cons in Hn as [Hne Hn].
  case_bool_decide as E; [unfold idOf in Hne; congruence|].
  by rewrite IH.
Qed.

Lemma patchFirst_absent M r :
  r !! k ∉ idOf k <$> M → patchFirst k M r = M.
Proof.
  intros Hn. rewrite <- (app_nil_r M) at 1.
  rewrite patchFirst_app_r by done. simpl. by rewrite app_nil_r.
Qed.

Lemma patchAll_ids Rs L : idOf k <$> patchAll k Rs L = idOf k <$> L.
Proof.
  revert L. induction Rs as [|r Rs IH]; intros L; simpl; [done|].
  unfold patchAll in *. simpl. by rewrite IH, patchFirst_ids.
Qed.

Lemma patchAll_length Rs L : length (patchAll k Rs L) = length L.
Proof.
  rewrite <- (length_fmap (idOf k)), patchAll_ids. apply length_fmap.
Qed.

Lemma overlay_id Rs m :
  Forall (λ r, r !! k = m !! k) Rs → overlay Rs m !! k = m !! k.
Proof.
  revert m. induction Rs as [|r Rs IH]; intros m HF; [done|].
  apply Forall_cons_1 in HF as [E HF].
  change (overlay (r :: Rs) m) with (overlay Rs (spread m r)).
  rewrite IH; [by apply spread_id|].
  eapply Forall_impl; [exact HF|]. intros r' E'. simpl in *.
  rewrite spread_id by done. done.
Qed.

(** The merged list, position by position. *)
Lemma patchAll_cons Rs m M :
  patchAll k Rs (m :: M) =
  overlay (filter (λ r, r !! k = m !! k) Rs) m
    :: patchAll k (filter (λ r, r !! k ≠ m !! k) Rs) M.
Proof.
  revert m M. induction Rs as [|r Rs IH]; intros m M; [done|].
  unfold patchAll in *. simpl foldl. case_bool_decide as E.
  - rewrite IH. rewrite spread_id by done.
    rewrite filter_cons_True by done.
    rewrite (filter_cons_False (λ r0, r0 !! k ≠ m !! k)) by (intros ?; congruence).
    done.
  - rewrite IH.
    rewrite filter_cons_False by congruence.
    rewrite (filter_cons_True (λ r0, r0 !! k ≠ m !! k)) by congruence.
    done.
Qed.

Lemma patchAll_nil Rs : patchAll k Rs [] = [].
Proof. induction Rs; simpl; unfold patchAll in *; simpl; done. Qed.

End merge_facts.

Section merge_shape.
Context (k : string).
Implicit Types (L R M A X : list record) (l r m : record).

Lemma mergeStep_fold L R X A :
  idOf k <$> X = idOf k <$> L →
  foldl (mergeStep k (list_to_set (idOf k <$> L))) (X ++ A) R =
  patchAll k (filter (λ r, r !! k ∈ idOf k <$> L) R) X
    ++ A ++ filter (λ r, r !! k ∉ idOf k <$> L) R.
Proof.
  revert X A. induction R as [|r R IH]; intros X A HX.
  - simpl. by rewrite app_nil_r.
  - cbn [foldl]. unfold mergeStep at 2.
    case_bool_decide as Hin; rewrite elem_of_list_to_set in Hin.
    + rewrite <- app_assoc, IH by done.
      rewrite filter_cons_False by done.
      rewrite (filter_cons_True (λ r, r !! k ∉ idOf k <$> L)) by done.
      by rewrite <- app_assoc.
    + rewrite findIndex_alter_patchFirst.
      rewrite patchFirst_app_l by (by rewrite HX).
      rewrite IH by (by rewrite patchFirst_ids).
      rewrite filter_cons_True by done.
      rewrite (filter_cons_False (λ r, r !! k ∉ idOf k <$> L)) by (intros ?; done).
      done.
Qed.

(** [mergeData] is the local list, patched in place by the remote items
    whose id it holds, followed by the other remote items in remote order. *)
Lemma mergeData_shape L R :
  mergeData L R k =
  patchAll k (filter (λ r, r !! k ∈ idOf k <$> L) R) L
    ++ filter (λ r, r !! k ∉ idOf k <$> L) R.
Proof.
  unfold mergeData. rewrite <- (app_nil_r L) at 2.
  change ((λ item : record, item !! k) <$> L) with (idOf k <$> L).
  by rewrite mergeStep_fold.
Qed.

End merge_shape.

Section merge_positions.
Context (k : string).
Implicit Types (L R M A X S : list record) (l r m : record).

Lemma overlay_snoc S r m : overlay (S ++ [r]) m = spread (overlay S m) r.
Proof. unfold overlay. by rewrite foldl_snoc. Qed.

Lemma overlay_untouched S m (f : string) :
  Forall (λ r, r !! f = None) S → overlay S m !! f = m !! f.
Proof.
  revert m. induction S as [|r S IH]; intros m HF; [done|].
  apply Forall_cons_1 in HF as [E HF].
  change (overlay (r :: S) m) with (overlay S (spread m r)).
  rewrite IH by done. unfold spread. by rewrite lookup_union_r.
Qed.

Lemma patchAll_lookup Rs L (i : nat) l :
  L !! i = Some l →
  ∃ S, patchAll k Rs L !! i = Some (overlay S l)
       ∧ S `sublist_of` Rs ∧ Forall (λ r, r !! k = l !! k) S.
Proof.
  revert Rs i. induction L as [|m M IH]; intros Rs i Hi; [done|].
  rewrite patchAll_cons. destruct i as [|i]; simpl in Hi.
  - injection Hi as ->. eexists. split; [done|]. split.
    + apply sublist_filter.
    + apply Forall_forall. intros r Hr.
      by apply list_elem_of_filter in Hr as [? _].
  - destruct (IH (filter (λ r, r !! k ≠ m !! k) Rs) i Hi) as (S & H1 & H2 & H3).
    exists S. split; [done|]. split; [|done].
    etrans; [exact H2|]. apply sublist_filter.
Qed.

End merge_positions.

(** C10. Membership is decided against the ids of the local list as it was
    on entry: the merged list is the local list, each record still at its
    position under its id and overlaid only with remote items of that id,
    followed by every remote item whose id the local list did not hold, in
    remote order.  Two remote items sharing an id absent from the local list
    are therefore both appended. *)
Theorem mergeData_membership_fixed (L R : list record) (k : string) :
  ∃ L' : list record,
    mergeData L R k = L' ++ filter (λ r, r !! k ∉ idOf k <$> L) R
    ∧ length L' = length L
    ∧ (∀ (i : nat) (l : record), L !! i = Some l →
        ∃ S : list record,
          L' !! i = Some (overlay S l)
          ∧ S `sublist_of` R
          ∧ Forall (λ r, r !! k = l !! k) S
          ∧ overlay S l !! k = l !! k)
    ∧ (∀ r1 r2 : record,
        r1 !! k = r2 !! k → r1 !! k ∉ idOf k <$> L →
        mergeData L [r1; r2] k = L ++ [r1; r2]).
Proof.
  exists (patchAll k (filter (λ r, r !! k ∈ idOf k <$> L) R) L).
  split; [apply mergeData_shape|]. split; [apply patchAll_length|]. split.
  - intros i l Hi.
    destruct (patchAll_lookup k (filter (λ r, r !! k ∈ idOf k <$> L) R) L i l Hi)
      as (S & H1 & H2 & H3).
    exists S. split; [done|]. split; [|split; [done|]].
    + etrans; [exact H2|]. apply sublist_filter.
    + by apply overlay_id.
  - intros r1 r2 E Hn. rewrite mergeData_shape.
    rewrite !filter_cons_False by (intros ?; congruence).
    rewrite !filter_cons_True by congruence.
    by rewrite filter_nil.
Qed.

(** The duplicate-id outcome on a concrete remote list. *)
Example mergeData_appends_duplicates :
  mergeData [] [ex_remote; ex_local] "id" = [ex_remote; ex_local].
Proof. vm_compute. reflexivity. Qed.

Section merge_algebra.
Context (k : string).
Implicit Types (L R M A X S : list record) (l r m : record).

Lemma overlay_union S m : overlay S m = overlay S ∅ ∪ m.
Proof.
  revert m. induction S as [|r S IH]; intros m.
  - unfold overlay. simpl. by rewrite (left_id_L ∅ (∪)).
  - change (overlay (r :: S) m) with (overlay S (spread m r)).
    change (overlay (r :: S) ∅) with (overlay S (spread ∅ r)).
    rewrite (IH (spread m r)), (IH (spread ∅ r)). unfold spread.
    rewrite (right_id_L ∅ (∪)). by rewrite (assoc_L (∪)).
Qed.

Lemma overlay_idemp S m : overlay S (overlay S m) = overlay S m.
Proof.
  rewrite (overlay_union S (overlay S m)), (overlay_union S m).
  rewrite (assoc_L (∪)). by rewrite (idemp_L (∪)).
Qed.

Lemma filter_all {T : Type} (P : T → Prop) `{!∀ x, Decision (P x)} (l : list T) :
  Forall P l → filter P l = l.
Proof.
  induction 1 as [|x l Hx _ IH]; [done|].
  by rewrite filter_cons_True, IH.
Qed.

Lemma filter_none {T : Type} (P : T → Prop) `{!∀ x, Decision (P x)} (l : list T) :
  Forall (λ x, ¬ P x) l → filter P l = [].
Proof.
  induction 1 as [|x l Hx _ IH]; [done|].
  by rewrite filter_cons_False.
Qed.

Lemma filter_id_absent M (i : option value) :
  i ∉ idOf k <$> M → filter (λ x, x !! k = i) M = [].
Proof.
  intros Hn. apply filter_none, Forall_forall. intros x Hx E.
  apply Hn. apply list_elem_of_fmap. exists x. by split.
Qed.

Lemma filter_id_unique R r :
  NoDup (idOf k <$> R) → r ∈ R → filter (λ x, x !! k = r !! k) R = [r].
Proof.
  induction R as [|x R IH]; intros Hnd Hin; [by apply elem_of_nil in Hin|].
  rewrite fmap_cons in Hnd. apply NoDup_cons in Hnd as [Hx Hnd].
  apply elem_of_cons in Hin as [->|Hin].
  - rewrite filter_cons_True by done. by rewrite filter_id_absent.
  - rewrite filter_cons_False; [by apply IH|].
    intros E. apply Hx. unfold idOf at 1. rewrite E.
    apply list_elem_of_fmap. by exists r.
Qed.

Lemma filter_other_ids R (i : option value) :
  i ∉ idOf k <$> R → filter (λ x, x !! k ≠ i) R = R.
Proof.
  intros Hn. apply filter_all, Forall_forall. intros x Hx E.
  apply Hn. apply list_elem_of_fmap. exists x. by split.
Qed.

(** Patching a list twice with the same remote items changes nothing more. *)
Lemma patchAll_idemp Rs L : patchAll k Rs (patchAll k Rs L) = patchAll k Rs L.
Proof.
  revert Rs. induction L as [|m M IH]; intros Rs.
  - by rewrite !patchAll_nil.
  - rewrite (patchAll_cons k Rs m M). rewrite patchAll_cons.
    assert (overlay (filter (λ r, r !! k = m !! k) Rs) m !! k = m !! k) as ->.
    { apply overlay_id, Forall_forall. intros r Hr.
      by apply list_elem_of_filter in Hr as [? _]. }
    by rewrite overlay_idemp, IH.
Qed.

(** Remote items with pairwise distinct ids leave their own list as it is. *)
Lemma patchAll_self A : NoDup (idOf k <$> A) → patchAll k A A = A.
Proof.
  induction A as [|a A IH]; intros Hnd; [done|].
  rewrite patchAll_cons.
  rewrite (filter_id_unique (a :: A) a Hnd) by (apply elem_of_cons; by left).
  rewrite fmap_cons in Hnd. apply NoDup_cons in Hnd as [Ha Hnd].
  rewrite filter_cons_False by (intros ?; done).
  rewrite filter_other_ids by done. rewrite IH by done.
  unfold overlay, spread. simpl. by rewrite (idemp_L (∪)).
Qed.

Lemma patchAll_app Rs X A :
  patchAll k Rs (X ++ A) =
  patchAll k (filter (λ r, r !! k ∈ idOf k <$> X) Rs) X
    ++ patchAll k (filter (λ r, r !! k ∉ idOf k <$> X) Rs) A.
Proof.
  revert X A. induction Rs as [|r Rs IH]; intros X A; [done|].
  change (patchAll k (r :: Rs) (X ++ A)) with (patchAll k Rs (patchFirst k (X ++ A) r)).
  destruct (decide (r !! k ∈ idOf k <$> X)) as [Hin|Hn].
  - rewrite patchFirst_app_l, IH by done. rewrite patchFirst_ids.
    rewrite filter_cons_True by done.
    by rewrite (filter_cons_False (λ r, r !! k ∉ idOf k <$> X)) by (intros ?; done).
  - rewrite patchFirst_app_r, IH by done.
    rewrite filter_cons_False by done.
    by rewrite (filter_cons_True (λ r, r !! k ∉ idOf k <$> X)) by done.
Qed.

End merge_algebra.

Section merge_claims.
Implicit Types (L R M A X S : list record) (l r m : record).

Lemma patchAll_filter_id (k : string) Rs L l :
  NoDup (idOf k <$> L) → l ∈ L →
  filter (λ x, x !! k = l !! k) (patchAll k Rs L)
  = [overlay (filter (λ r, r !! k = l !! k) Rs) l].
Proof.
  revert Rs. induction L as [|m M IH]; intros Rs Hnd Hin;
    [by apply elem_of_nil in Hin|].
  rewrite fmap_cons in Hnd. apply NoDup_cons in Hnd as [Hm Hnd].
  rewrite patchAll_cons.
  assert (overlay (filter (λ r, r !! k = m !! k) Rs) m !! k = m !! k) as Hid.
  { apply overlay_id, Forall_forall. intros r Hr.
    by apply list_elem_of_filter in Hr as [? _]. }
  apply elem_of_cons in Hin as [->|Hin].
  - rewrite filter_cons_True by done.
    rewrite (filter_id_absent k (patchAll k _ M) (m !! k)); [done|].
    by rewrite patchAll_ids.
  - assert (l !! k ≠ m !! k) as Hne.
    { intros E. apply Hm. unfold idOf at 1. rewrite <- E.
      apply list_elem_of_fmap. by exists l. }
    rewrite filter_cons_False by congruence.
    rewrite IH by done. f_equal. f_equal.
    apply list_filter_filter_l. congruence.
Qed.

(** In collections keyed by [k] (no id twice in the local list, none twice
    in the remote list), a local record [l] and a remote record [r] with the
    same id leave exactly one record under that id in the merged list. *)
Lemma mergeData_keyed_pair L R (k : string) l r :
  l ∈ L → r ∈ R → l !! k = r !! k →
  NoDup (idOf k <$> L) → NoDup (idOf k <$> R) →
  filter (λ x, x !! k = r !! k) (mergeData L R k) = [spread l r].
Proof.
  intros Hl Hr E HL HR.
  rewrite mergeData_shape, filter_app. rewrite <- E.
  rewrite patchAll_filter_id by done.
  rewrite (list_filter_filter_l (λ x, x !! k = l !! k)); last first.
  { intros x Hx. unfold idOf. rewrite Hx.
    apply list_elem_of_fmap. by exists l. }
  rewrite (filter_id_absent k (filter _ R) (l !! k)); last first.
  { intros Hin. apply list_elem_of_fmap in Hin as (x & Hx & Hin).
    apply list_elem_of_filter in Hin as [Hn _]. apply Hn.
    unfold idOf in Hx. rewrite <- Hx. apply list_elem_of_fmap. by exists l. }
  rewrite E, filter_id_unique by done. done.
Qed.



Example spread_example : spread ex_local ex_remote = ex_merged.
Proof. vm_compute. reflexivity. Qed.

(** C2, as the code has it.  Merging the same remote list a second time
    changes nothing, provided no two remote items share an id that the
    local list does not hold. *)
Theorem mergeData_idempotent L R (k : string) :
  NoDup (idOf k <$> filter (λ r, r !! k ∉ idOf k <$> L) R) →
  mergeData (mergeData L R k) R k = mergeData L R k.
Proof.
  intros Hnd. rewrite (mergeData_shape k L R).
  set (X := patchAll k (filter (λ r, r !! k ∈ idOf k <$> L) R) L).
  set (A := filter (λ r, r !! k ∉ idOf k <$> L) R) in *.
  assert (idOf k <$> X = idOf k <$> L) as HX by apply patchAll_ids.
  rewrite mergeData_shape.
  assert (Forall (λ r, r !! k ∈ idOf k <$> X ++ A) R) as Hall.
  { apply Forall_forall. intros r Hr. rewrite fmap_app, HX. apply elem_of_app.
    destruct (decide (r !! k ∈ idOf k <$> L)) as [?|Hn]; [by left|right].
    apply list_elem_of_fmap. exists r. split; [done|].
    by apply list_elem_of_filter. }
  rewrite (filter_all _ R Hall).
  rewrite (filter_none (λ r, r !! k ∉ idOf k <$> X ++ A) R); last first.
  { eapply Forall_impl; [exact Hall|]. simpl. tauto. }
  rewrite app_nil_r, patchAll_app, HX.
  fold A. rewrite (patchAll_self k A Hnd). f_equal.
  unfold X. apply patchAll_idemp.
Qed.

End merge_claims.

Definition dup_first : record := <["id" := VNum 1]> (<["a" := VStr "x"]> ∅).
Definition dup_second : record := <["id" := VNum 1]> (<["a" := VStr "y"]> ∅).

Lemma mergeData_idempotent_witness :
  mergeData (mergeData [ex_local] [ex_remote] "id") [ex_remote] "id"
  = mergeData [ex_local] [ex_remote] "id".
Proof.
  apply (mergeData_idempotent [ex_local] [ex_remote] "id").
  apply (bool_decide_unpack _). vm_compute. reflexivity.
Defined.

(** C2 fails as stated: two remote items under one id the local list does
    not hold are both appended by the first merge, and the second merge
    lays the later one over the earlier. *)
Lemma mergeData_not_idempotent :
  mergeData [] [dup_first; dup_second] "id" = [dup_first; dup_second]
  ∧ mergeData (mergeData [] [dup_first; dup_second] "id") [dup_first; dup_second] "id"
    = [dup_second; dup_second]
  ∧ mergeData (mergeData [] [dup_first; dup_second] "id") [dup_first; dup_second] "id"
    ≠ mergeData [] [dup_first; dup_second] "id".
Proof.
  split; [vm_compute; reflexivity|]. split; [vm_compute; reflexivity|].
  apply (bool_decide_unpack _). vm_compute. reflexivity.
Qed.

(** ** The API client under a failing endpoint *)

(** The three ways an attempt of revision 1.0.4 fails, and the error it
    throws: transport failure, a status outside 200-299, a body that is not
    a JSON object or an envelope with [status: 'error']. *)
Definition errorOf (o : FetchOutcome) : option JsError :=
  match o with
  | FetchRejected msg => Some (ErrTransport msg)
  | FetchResponse status statusText body =>
      if response_ok status then
        match body with
        | BadJson => Some ErrParse
        | JsonNull => Some ErrType
        | JsonObject env =>
            if bool_decide (env_status env = Some "error") then
              Some (ErrApi (match env_message env with
                            | Some msg => if String.eqb msg "" then "Unknown API error" else msg
                            | None => "Unknown API error"
                            end))
            else None
        end
      else Some (ErrHttp status statusText)
  end.

(** The backoff delays of the loop from turn [attempt] on. *)
Fixpoint delaysFrom (cfg : Config) (remaining attempt : nat) : list Z :=
  match remaining with
  | O => []
  | S remaining' =>
      (if (attempt <? retryAttempts cfg)%nat then [retryDelay cfg * Z.of_nat attempt] else [])
        ++ delaysFrom cfg remaining' (S attempt)
  end.

Definition always_failing (net : nat → Request → FetchOutcome) : Prop :=
  ∀ (n : nat) (req : Request), is_Some (errorOf (net n req)).

Definition lastErrorOf (net : nat → Request → FetchOutcome) (req : Request)
    (sent remaining : nat) (lastError : JsError) : JsError :=
  match remaining with
  | O => lastError
  | S r => default lastError (errorOf (net (sent + r)%nat req))
  end.

Lemma run_attempt_104 net req (h : JsError → Async Envelope) w tr :
  run net (tryCatch (V104.attemptOnce req) h w) tr =
  match errorOf (net (length (requests tr)) req) with
  | Some e => run net (h e w) {| requests := requests tr ++ [req]; timers := timers tr |}
  | None =>
      match net (length (requests tr)) req with
      | FetchResponse _ _ (JsonObject env) =>
          (w, Returned env, {| requests := requests tr ++ [req]; timers := timers tr |})
      | _ => (w, Threw ErrType, tr)
      end
  end.
Proof.
  unfold tryCatch, V104.attemptOnce, bind. cbn.
  destruct (net (length (requests tr)) req) as [msg|status statusText body]; cbn; [done|].
  destruct (response_ok status); cbn; [|done].
  destruct body as [| |env]; cbn; [done|done|].
  case_bool_decide; cbn; done.
Qed.

Lemma run_retryLoop_fail net cfg req remaining attempt lastError w tr :
  always_failing net →
  run net (retryLoop cfg (V104.attemptOnce req) remaining attempt lastError w) tr =
  (foldl (λ w ms, tick ms w) w (delaysFrom cfg remaining attempt),
   Threw (lastErrorOf net req (length (requests tr)) remaining lastError),
   {| requests := requests tr ++ replicate remaining req;
      timers := timers tr ++ delaysFrom cfg remaining attempt |}).
Proof.
  intros Hfail.
  revert attempt lastError w tr.
  induction remaining as [|r IH]; intros attempt lastError w tr.
  - cbn. rewrite !app_nil_r. by destruct tr.
  - cbn [retryLoop]. rewrite run_attempt_104.
    destruct (Hfail (length (requests tr)) req) as [e He]. rewrite He.
    assert (lastErrorOf net req (length (requests tr ++ [req])) r e
            = lastErrorOf net req (length (requests tr)) (S r) lastError) as Hlast.
    { rewrite length_app. cbn [length]. destruct r as [|r'].
      - cbn. rewrite Nat.add_0_r, He. done.
      - cbn [lastErrorOf].
        replace (length (requests tr) + 1 + r')%nat
          with (length (requests tr) + S r')%nat by lia.
        destruct (Hfail (length (requests tr) + S r')%nat req) as [e' ->]. done. }
    unfold bind. cbn [delaysFrom].
    destruct (attempt <? retryAttempts cfg)%nat; cbn.
    + rewrite IH. cbn [requests timers]. rewrite Hlast.
      by rewrite <- !app_assoc.
    + rewrite IH. cbn [requests timers]. rewrite Hlast.
      by rewrite <- !app_assoc.
Qed.

Lemma delaysFrom_length cfg remaining attempt :
  (attempt + remaining = S (retryAttempts cfg))%nat →
  length (delaysFrom cfg remaining attempt) = pred remaining.
Proof.
  revert attempt. induction remaining as [|r IH]; intros attempt E; [done|].
  cbn [delaysFrom]. rewrite length_app, IH by lia.
  destruct (Nat.ltb_spec attempt (retryAttempts cfg)); cbn; destruct r; lia.
Qed.

(** C5. Against an endpoint that fails every attempt, a configured client
    sends the request exactly [retryAttempts] times (3 by default), waits
    [retryDelay * n] after the [n]-th failure but the last, and rejects with
    the error of the last attempt.  Nothing else of the world changes. *)
Theorem makeApiRequest_retry_bound (cfg : Config) (net : nat → Request → FetchOutcome)
    (action method : string) (data : option record) (w : World) :
  webAppUrl w ≠ "" →
  (0 < retryAttempts cfg)%nat →
  always_failing net →
  ∃ (w' : World) (e : JsError) (tr : Trace),
    exec net (V104.makeApiRequest cfg action method data) w = (w', Threw e, tr)
    ∧ requests tr =
        replicate (retryAttempts cfg) (V104.buildRequest (webAppUrl w) action method data)
    ∧ length (requests tr) = retryAttempts cfg
    ∧ errorOf (net (retryAttempts cfg - 1)%nat
                 (V104.buildRequest (webAppUrl w) action method data)) = Some e
    ∧ length (timers tr) = (retryAttempts cfg - 1)%nat
    ∧ APP w' = APP w ∧ webAppUrl w' = webAppUrl w ∧ isOnline w' = isOnline w.
Proof.
  intros Hurl Hpos Hfail.
  unfold exec, V104.makeApiRequest, bind, gets. cbn [bindTask].
  destruct (String.eqb_spec (webAppUrl w) "") as [E|_]; [done|].
  rewrite run_retryLoop_fail by done. cbn [requests timers noTrace app length].
  eexists _, _, _. split; [reflexivity|]. cbn [requests timers].
  split; [done|]. split; [by rewrite length_replicate|]. split.
  { destruct (retryAttempts cfg) as [|n]; [lia|]. cbn [lastErrorOf].
    replace (S n - 1)%nat with n by lia. cbn.
    destruct (Hfail n (V104.buildRequest (webAppUrl w) action method data)) as [e ->].
    done. }
  split; [rewrite delaysFrom_length by lia; lia|].
  generalize (delaysFrom cfg (retryAttempts cfg) 1). intros ds.
  revert w Hurl. induction ds as [|d ds IH]; intros w Hurl; [done|].
  cbn [foldl]. destruct (IH (tick d w)) as (H1 & H2 & H3); [done|].
  by rewrite H1, H2, H3.
Qed.

(** ** Running composed tasks *)

Section run_facts.
Context (net : nat → Request → FetchOutcome).

Lemma run_bindTask {A B : Type} (t : Task A) (f : A → Async B) tr :
  run net (bindTask t f) tr =
  match run net t tr with
  | (w', Returned a, tr') => run net (f a w') tr'
  | (w', Threw e, tr') => (w', Threw e, tr')
  end.
Proof.
  revert tr. induction t as [w [a|e]|w req k IH|w ms k IH]; intros tr; cbn; try done.
  all: apply IH.
Qed.

Lemma run_catchTask {A : Type} (t : Task A) (h : JsError → Async A) tr :
  run net (catchTask t h) tr =
  match run net t tr with
  | (w', Returned a, tr') => (w', Returned a, tr')
  | (w', Threw e, tr') => run net (h e w') tr'
  end.
Proof.
  revert tr. induction t as [w [a|e]|w req k IH|w ms k IH]; intros tr; cbn; try done.
  all: apply IH.
Qed.

Lemma run_finallyTask {A : Type} (t : Task A) (f : World → World) tr :
  run net (finallyTask t f) tr =
  match run net t tr with
  | (w', r, tr') => (f w', r, tr')
  end.
Proof.
  revert tr. induction t as [w r|w req k IH|w ms k IH]; intros tr; cbn; try done.
  all: apply IH.
Qed.

(** Worlds that differ in the clock only. *)
Definition sameButClock (w w' : World) : Prop :=
  APP w' = APP w ∧ webAppUrl w' = webAppUrl w ∧ isOnline w' = isOnline w
  ∧ lastSyncTime w' = lastSyncTime w ∧ entropy w' = entropy w.

Lemma sameButClock_refl w : sameButClock w w.
Proof. by repeat split. Qed.

Lemma sameButClock_tick w w' ms : sameButClock w w' → sameButClock w (tick ms w').
Proof. intros (?&?&?&?&?). by repeat split. Qed.

(** An attempt that leaves the world as it found it. *)
Definition worldly {A : Type} (once : Async A) : Prop :=
  ∀ w tr, (run net (once w) tr).1.1 = w.

Lemma retryLoop_world {A : Type} cfg (once : Async A) remaining attempt lastError w tr :
  worldly once →
  sameButClock w (run net (retryLoop cfg once remaining attempt lastError w) tr).1.1.
Proof.
  intros Hpure. revert attempt lastError w tr.
  induction remaining as [|r IH]; intros attempt lastError w tr.
  - cbn. apply sameButClock_refl.
  - cbn [retryLoop]. unfold tryCatch. rewrite run_catchTask.
    specialize (Hpure w tr).
    destruct (run net (once w) tr) as [[w1 [a|e]] tr1]; cbn in Hpure; subst w1.
    + cbn. apply sameButClock_refl.
    + unfold bind. destruct (attempt <? retryAttempts cfg)%nat; cbn.
      * specialize (IH (S attempt) e (tick (retryDelay cfg * Z.of_nat attempt) w)
                      {| requests := requests tr1;
                         timers := timers tr1 ++ [retryDelay cfg * Z.of_nat attempt] |}).
        destruct IH as (?&?&?&?&?). by repeat split.
      * apply IH.
Qed.

Lemma worldly_attempt_104 req : worldly (V104.attemptOnce req).
Proof.
  intros w tr. unfold V104.attemptOnce, bind. cbn.
  destruct (net _ req) as [msg|status statusText body]; cbn; [done|].
  destruct (response_ok status); cbn; [|done].
  destruct body as [| |env]; cbn; [done|done|].
  case_bool_decide; done.
Qed.

Lemma worldly_attempt_100 req : worldly (V100.attemptOnce req).
Proof.
  intros w tr. unfold V100.attemptOnce, bind. cbn.
  destruct (net _ req) as [msg|status statusText body]; cbn; [done|].
  destruct (response_ok status); cbn; [|done].
  destruct body as [| |env]; cbn; [done|done|].
  destruct (env_error env) as [msg|]; [|done].
  by destruct (String.eqb msg "").
Qed.

Lemma makeApiRequest_world_104 cfg action method data w tr :
  sameButClock w (run net (V104.makeApiRequest cfg action method data w) tr).1.1.
Proof.
  unfold V104.makeApiRequest, bind, gets. cbn [bindTask].
  destruct (String.eqb (webAppUrl w) ""); [apply sameButClock_refl|].
  apply retryLoop_world, worldly_attempt_104.
Qed.

Lemma makeApiRequest_world_100 cfg endpoint method data w tr :
  sameButClock w (run net (V100.makeApiRequest cfg endpoint method data w) tr).1.1.
Proof.
  unfold V100.makeApiRequest, bind, gets. cbn [bindTask].
  destruct (String.eqb (webAppUrl w) ""); [apply sameButClock_refl|].
  apply retryLoop_world, worldly_attempt_100.
Qed.

End run_facts.

(** ** Sample worlds and networks *)

Definition emptyApp : App :=
  {| storage := ∅; storedLastSync := None; storedWebAppUrl := None;
     state := ∅; toasts := []; loading := false |}.

Definition fordF150 : record :=
  <["make" := VStr "Ford"]> (<["model" := VStr "F150"]> (<["year" := VNum 2020]> ∅)).

Definition storedCar : record :=
  <["vehicle_id" := VStr "v-1"]> (<["make" := VStr "Honda"]> ∅).

Definition demoApp : App := saveToStorage "vehicles" [storedCar] emptyApp.

Definition demoWorld : World :=
  {| webAppUrl := "https://script.example/exec"; isOnline := true;
     lastSyncTime := None; clock := 1755561600000;
     entropy := ["k3j9x2"; "p0q8r7"]; APP := Some demoApp |}.

Definition offlineWorld : World :=
  {| webAppUrl := "https://script.example/exec"; isOnline := false;
     lastSyncTime := None; clock := 1755561600000;
     entropy := ["k3j9x2"; "p0q8r7"]; APP := Some demoApp |}.

(** An endpoint that is down, and one that answers every request with the
    given rows. *)
Definition netDown : nat → Request → FetchOutcome :=
  λ _ _, FetchResponse 503 "Service Unavailable" BadJson.

Definition netServing (rows : list record) : nat → Request → FetchOutcome :=
  λ _ _, FetchResponse 200 "OK"
           (JsonObject {| env_status := Some "ok"; env_message := None;
                          env_error := None; env_data := DataRows rows |}).

Example makeApiRequest_three_attempts :
  exec netDown (V104.makeApiRequest GOOGLE_CONFIG "vehicles" "GET" None) demoWorld
  = (tick 3000 demoWorld, Threw (ErrHttp 503 "Service Unavailable"),
     {| requests :=
          replicate 3 {| req_url := "https://script.example/exec?action=vehicles";
                         req_method := "GET"; req_json := false; req_body := None |};
        timers := [1000; 2000] |}).
Proof. vm_compute. reflexivity. Qed.

Lemma makeApiRequest_retry_bound_witness :
  ∃ (w' : World) (e : JsError) (tr : Trace),
    exec netDown (V104.makeApiRequest GOOGLE_CONFIG "vehicles" "GET" None) demoWorld
      = (w', Threw e, tr)
    ∧ requests tr =
        replicate (retryAttempts GOOGLE_CONFIG)
          (V104.buildRequest (webAppUrl demoWorld) "vehicles" "GET" None)
    ∧ length (requests tr) = retryAttempts GOOGLE_CONFIG
    ∧ errorOf (netDown (retryAttempts GOOGLE_CONFIG - 1)%nat
                 (V104.buildRequest (webAppUrl demoWorld) "vehicles" "GET" None)) = Some e
    ∧ length (timers tr) = (retryAttempts GOOGLE_CONFIG - 1)%nat
    ∧ APP w' = APP demoWorld ∧ webAppUrl w' = webAppUrl demoWorld
    ∧ isOnline w' = isOnline demoWorld.
Proof.
  apply (makeApiRequest_retry_bound GOOGLE_CONFIG netDown "vehicles" "GET" None demoWorld).
  - discriminate.
  - cbn. lia.
  - intros n req. cbn. eexists. reflexivity.
Defined.

(** C6. When the pull of a collection is rejected, the sync of that
    collection is rejected with the same error and [window.APP] — the Local
    Store and its mirror — is what it was.  The four [sync...] functions of
    revision 1.0.0 are the instances of [syncCollection]. *)
Theorem sync_pull_failure_keeps_store (cfg : Config) (net : nat → Request → FetchOutcome)
    (endpoint key idField : string) (lastSync : option Z)
    (w w1 : World) (e : JsError) (tr1 : Trace) :
  exec net (V100.makeApiRequest cfg (endpoint +:+ V100.sinceQuery lastSync) "GET" None) w
    = (w1, Threw e, tr1) →
  exec net (V100.syncCollection cfg endpoint key idField lastSync) w = (w1, Threw e, tr1)
  ∧ APP w1 = APP w
  ∧ localRows key w1 = localRows key w.
Proof.
  unfold exec. intros Hpull.
  pose proof (makeApiRequest_world_100 net cfg
                (endpoint +:+ V100.sinceQuery lastSync) "GET" None w noTrace) as Hw.
  rewrite Hpull in Hw. destruct Hw as (Happ & _).
  split; [|split; [done|]].
  - unfold V100.syncCollection, tryCatch, bind.
    rewrite run_catchTask, run_bindTask, Hpull. done.
  - unfold localRows. cbn in Happ. by rewrite Happ.
Qed.

Lemma sync_pull_failure_keeps_store_witness :
  exec netDown (V100.syncCollection GOOGLE_CONFIG "/vehicles" "vehicles" "vehicle_id" None)
    demoWorld
  = (tick 3000 demoWorld, Threw (ErrHttp 503 "Service Unavailable"),
     {| requests :=
          replicate 3 {| req_url := "https://script.example/exec/vehicles";
                         req_method := "GET"; req_json := true; req_body := None |};
        timers := [1000; 2000] |})
  ∧ APP (tick 3000 demoWorld) = APP demoWorld
  ∧ localRows "vehicles" (tick 3000 demoWorld) = localRows "vehicles" demoWorld.
Proof.
  apply (sync_pull_failure_keeps_store GOOGLE_CONFIG netDown "/vehicles" "vehicles"
           "vehicle_id" None demoWorld).
  vm_compute. reflexivity.
Defined.

(** The same for the one sync function of revision 1.0.4. *)
Lemma sync_pull_failure_keeps_store_104 (cfg : Config) (net : nat → Request → FetchOutcome)
    (w w1 : World) (e : JsError) (tr1 : Trace) :
  exec net (V104.makeApiRequest cfg "vehicles" "GET" None) w = (w1, Threw e, tr1) →
  exec net (V104.syncVehicles cfg) w = (w1, Threw e, tr1) ∧ APP w1 = APP w.
Proof.
  unfold exec. intros Hpull.
  pose proof (makeApiRequest_world_104 net cfg "vehicles" "GET" None w noTrace) as Hw.
  rewrite Hpull in Hw. destruct Hw as (Happ & _). split; [|done].
  unfold V104.syncVehicles, tryCatch, bind.
  rewrite run_catchTask, run_bindTask, Hpull. done.
Qed.

(** ** Creating a vehicle *)

Definition setOnline (b : bool) (w : World) : World :=
  {| webAppUrl := webAppUrl w; isOnline := b;
     lastSyncTime := lastSyncTime w; clock := clock w;
     entropy := entropy w; APP := APP w |}.

(** The object literal of [addVehicle], on the world it is evaluated in. *)
Definition newVehicle (w : World) (vehicleData : record) : record :=
  stamp [("created_date", VStr (toISOString (clock w)));
         ("last_updated", VStr (toISOString (clock w)))]
    (spread {["vehicle_id" := VStr (freshId w)]} vehicleData).

Lemma newVehicle_fields w (vehicleData : record) :
  newVehicle w vehicleData !! "created_date" = Some (VStr (toISOString (clock w)))
  ∧ newVehicle w vehicleData !! "last_updated" = Some (VStr (toISOString (clock w)))
  ∧ (vehicleData !! "vehicle_id" = None →
     newVehicle w vehicleData !! "vehicle_id" = Some (VStr (freshId w)))
  ∧ (∀ v, vehicleData !! "vehicle_id" = Some v →
     newVehicle w vehicleData !! "vehicle_id" = Some v)
  ∧ (∀ f : string, f ∉ ["vehicle_id"; "created_date"; "last_updated"] →
     newVehicle w vehicleData !! f = vehicleData !! f).
Proof.
  unfold newVehicle, stamp, spread. cbn [foldl fst snd].
  split; [|split; [|split; [|split]]].
  - rewrite lookup_insert_ne by done. by rewrite lookup_insert_eq.
  - by rewrite lookup_insert_eq.
  - intros Hn. rewrite !lookup_insert_ne by done.
    rewrite lookup_union_r by done. by rewrite lookup_singleton_eq.
  - intros v Hv. rewrite !lookup_insert_ne by done.
    by apply lookup_union_Some_l.
  - intros f Hf. rewrite !not_elem_of_cons in Hf. destruct Hf as (H1 & H2 & H3 & _).
    rewrite !lookup_insert_ne by done.
    destruct (vehicleData !! f) as [v|] eqn:E.
    + by apply lookup_union_Some_l.
    + rewrite lookup_union_r by done. by rewrite lookup_singleton_ne.
Qed.

Lemma addVehicle_offline_100 cfg net (vehicleData : record) w a :
  isOnline w = false → APP w = Some a →
  exec net (V100.addVehicle cfg vehicleData) w
  = (withApp (λ a, setState "vehicles" (localRows "vehicles" w ++ [newVehicle w vehicleData])
                     (saveToStorage "vehicles"
                        (localRows "vehicles" w ++ [newVehicle w vehicleData]) a))
       (dropEntropy w),
     Returned (newVehicle w vehicleData), noTrace).
Proof.
  intros Hoff Happ.
  unfold exec, V100.addVehicle, tryCatch, bind, takeId, gets, modify, persist, ret.
  cbn. rewrite Happ. cbn. rewrite Hoff. cbn.
  unfold newVehicle, freshId, localRows. rewrite Happ. cbn. rewrite Happ. done.
Qed.

Lemma localRows_APP key w w' : APP w' = APP w → localRows key w' = localRows key w.
Proof. unfold localRows. by intros ->. Qed.

Lemma localRows_persisted key rows w a :
  APP w = Some a →
  localRows key (withApp (λ a, setState key rows (saveToStorage key rows a)) w) = rows.
Proof.
  intros Happ. unfold localRows, withApp, getFromStorage. cbn. rewrite Happ. cbn.
  by rewrite lookup_insert_eq.
Qed.

Lemma addVehicle_store_100 cfg net (vehicleData : record) w a :
  APP w = Some a →
  localRows "vehicles" (exec net (V100.addVehicle cfg vehicleData) w).1.1
  = localRows "vehicles" w ++ [newVehicle w vehicleData].
Proof.
  intros Happ.
  unfold exec, V100.addVehicle, tryCatch, bind, takeId, gets, modify, persist, ret.
  cbn -[V100.makeApiRequest]. rewrite Happ. cbn -[V100.makeApiRequest].
  fold (newVehicle w vehicleData).
  rewrite (localRows_APP "vehicles" w (dropEntropy w)) by done.
  set (rows := localRows "vehicles" w ++ [newVehicle w vehicleData]).
  set (w1 := withApp _ (dropEntropy w)).
  assert (localRows "vehicles" w1 = rows) as Hrows
    by (apply (localRows_persisted _ _ _ a); done).
  destruct (isOnline w && configured w1).
  - rewrite run_catchTask, !run_bindTask.
    pose proof (makeApiRequest_world_100 net cfg "/vehicles" "POST"
                  (Some (newVehicle w vehicleData)) w1 noTrace) as (Hw & _).
    destruct (run net (V100.makeApiRequest _ _ _ _ w1) noTrace) as [[w2 [env|e]] tr2];
      cbn in *; by rewrite (localRows_APP "vehicles" w1 w2).
  - cbn. done.
Qed.

Lemma addVehicle_store_104 cfg net (vehicleData : record) w a :
  APP w = Some a →
  localRows "vehicles" (exec net (V104.addVehicle cfg vehicleData) w).1.1
  = localRows "vehicles" w ++ [newVehicle w vehicleData].
Proof.
  intros Happ.
  unfold exec, V104.addVehicle, tryCatch, bind, takeId, gets, modify, persist, ret.
  cbn -[V104.makeApiRequest]. rewrite Happ. cbn -[V104.makeApiRequest].
  change (<["last_updated":=_]> _) with (newVehicle w vehicleData).
  destruct (isOnline w && configured _).
  - rewrite run_catchTask, run_bindTask, run_catchTask, run_bindTask.
    pose proof (makeApiRequest_world_104 net cfg "vehicles" "POST"
                  (Some (newVehicle w vehicleData)) (dropEntropy w) noTrace) as (Hw & _).
    destruct (run net (V104.makeApiRequest _ _ _ _ (dropEntropy w)) noTrace)
      as [[w2 [env|e]] tr2]; cbn in *.
    + rewrite (localRows_persisted _ _ _ a) by (by rewrite Hw).
      by rewrite (localRows_APP "vehicles" w w2).
    + rewrite (localRows_persisted _ _ _ a) by (by rewrite Hw).
      by rewrite (localRows_APP "vehicles" w w2).
  - cbn. rewrite (localRows_persisted _ _ _ a) by done.
    by rewrite (localRows_APP "vehicles" w (dropEntropy w)).
Qed.

Lemma addVehicle_offline_104 cfg net (vehicleData : record) w a :
  isOnline w = false → APP w = Some a →
  exec net (V104.addVehicle cfg vehicleData) w
  = (withApp (λ a, setState "vehicles" (localRows "vehicles" w ++ [newVehicle w vehicleData])
                     (saveToStorage "vehicles"
                        (localRows "vehicles" w ++ [newVehicle w vehicleData]) a))
       (dropEntropy w),
     Returned (newVehicle w vehicleData), noTrace).
Proof.
  intros Hoff Happ.
  unfold exec, V104.addVehicle, tryCatch, bind, takeId, gets, modify, persist, ret.
  cbn. rewrite Happ. cbn. rewrite Hoff. cbn.
  unfold newVehicle, freshId, localRows. rewrite Happ. cbn. rewrite Happ. done.
Qed.

(** C8, as the code has it.  Offline, with [window.APP] loaded, creating a
    vehicle from data that carries no [vehicle_id] of its own returns at once,
    without any request, a record under a generated id, stamped with the
    current time as creation and update date and otherwise equal to the data;
    the Local Store holds it as the last vehicle.  With connectivity on, the
    Local Store ends the same whatever the network answers to the POST.
    Both revisions of [addVehicle] behave so. *)
Theorem addVehicle_offline (cfg : Config) (net : nat → Request → FetchOutcome)
    (vehicleData : record) (w : World) (a : App) :
  isOnline w = false → APP w = Some a → vehicleData !! "vehicle_id" = None →
  ∃ (vehicle : record) (w' : World),
    exec net (V100.addVehicle cfg vehicleData) w = (w', Returned vehicle, noTrace)
    ∧ exec net (V104.addVehicle cfg vehicleData) w = (w', Returned vehicle, noTrace)
    ∧ localRows "vehicles" w' = localRows "vehicles" w ++ [vehicle]
    ∧ vehicle !! "vehicle_id" = Some (VStr (generateId w))
    ∧ vehicle !! "created_date" = Some (VStr (toISOString (clock w)))
    ∧ vehicle !! "last_updated" = Some (VStr (toISOString (clock w)))
    ∧ (∀ f : string, f ∉ ["vehicle_id"; "created_date"; "last_updated"] →
         vehicle !! f = vehicleData !! f)
    ∧ localRows "vehicles" (exec net (V100.addVehicle cfg vehicleData) (setOnline true w)).1.1
        = localRows "vehicles" w ++ [vehicle]
    ∧ localRows "vehicles" (exec net (V104.addVehicle cfg vehicleData) (setOnline true w)).1.1
        = localRows "vehicles" w ++ [vehicle].
Proof.
  intros Hoff Happ Hid.
  destruct (newVehicle_fields w vehicleData) as (Hc & Hu & Hv & _ & Hrest).
  eexists (newVehicle w vehicleData), _.
  split; [by apply (addVehicle_offline_100 _ _ _ _ a)|].
  split; [by apply (addVehicle_offline_104 _ _ _ _ a)|].
  split; [by apply (localRows_persisted _ _ _ a)|].
  split; [rewrite (Hv Hid); unfold freshId; by rewrite Happ|].
  split; [done|]. split; [done|]. split; [done|].
  split.
  - by rewrite (addVehicle_store_100 _ _ _ _ a).
  - by rewrite (addVehicle_store_104 _ _ _ _ a).
Qed.

Definition taggedCar : record := <["vehicle_id" := VStr "mine"]> fordF150.

Lemma addVehicle_offline_witness :
  ∃ (vehicle : record) (w' : World),
    exec netDown (V100.addVehicle GOOGLE_CONFIG fordF150) offlineWorld
      = (w', Returned vehicle, noTrace)
    ∧ exec netDown (V104.addVehicle GOOGLE_CONFIG fordF150) offlineWorld
      = (w', Returned vehicle, noTrace)
    ∧ localRows "vehicles" w' = localRows "vehicles" offlineWorld ++ [vehicle]
    ∧ vehicle !! "vehicle_id" = Some (VStr (generateId offlineWorld))
    ∧ vehicle !! "created_date" = Some (VStr (toISOString (clock offlineWorld)))
    ∧ vehicle !! "last_updated" = Some (VStr (toISOString (clock offlineWorld)))
    ∧ (∀ f : string, f ∉ ["vehicle_id"; "created_date"; "last_updated"] →
         vehicle !! f = fordF150 !! f)
    ∧ localRows "vehicles"
        (exec netDown (V100.addVehicle GOOGLE_CONFIG fordF150) (setOnline true offlineWorld)).1.1
        = localRows "vehicles" offlineWorld ++ [vehicle]
    ∧ localRows "vehicles"
        (exec netDown (V104.addVehicle GOOGLE_CONFIG fordF150) (setOnline true offlineWorld)).1.1
        = localRows "vehicles" offlineWorld ++ [vehicle].
Proof.
  apply (addVehicle_offline GOOGLE_CONFIG netDown fordF150 offlineWorld demoApp).
  - reflexivity.
  - reflexivity.
  - vm_compute. reflexivity.
Defined.

Example addVehicle_offline_example :
  (exec netDown (V100.addVehicle GOOGLE_CONFIG fordF150) offlineWorld).1.2
  = Returned (<["vehicle_id" := VStr "mehs1s00k3j9x2"]>
               (<["created_date" := VStr "2025-08-19T00:00:00.000Z"]>
                 (<["last_updated" := VStr "2025-08-19T00:00:00.000Z"]> fordF150)))
  ∧ (exec netDown (V100.addVehicle GOOGLE_CONFIG fordF150) offlineWorld).2 = noTrace.
Proof. vm_compute. split; reflexivity. Qed.

(** C8 fails as stated: data that carries a [vehicle_id] keeps it, the
    generated id is dropped. *)
Lemma addVehicle_keeps_supplied_id :
  ∃ (vehicle : record) (w' : World),
    exec netDown (V100.addVehicle GOOGLE_CONFIG taggedCar) offlineWorld
      = (w', Returned vehicle, noTrace)
    ∧ localRows "vehicles" w' = localRows "vehicles" offlineWorld ++ [vehicle]
    ∧ vehicle !! "vehicle_id" = Some (VStr "mine")
    ∧ vehicle !! "vehicle_id" ≠ Some (VStr (generateId offlineWorld)).
Proof.
  eexists _, _. split; [vm_compute; reflexivity|].
  split; [vm_compute; reflexivity|]. split; [vm_compute; reflexivity|].
  apply (bool_decide_unpack _). vm_compute. reflexivity.
Qed.

(** ** Deleting a vehicle, then pulling *)

Lemma deleteVehicle_store cfg net (vehicleId : string) w a :
  APP w = Some a →
  localRows "vehicles" (exec net (V100.deleteVehicle cfg vehicleId) w).1.1
  = filter (λ v : record, v !! "vehicle_id" ≠ Some (VStr vehicleId)) (localRows "vehicles" w).
Proof.
  intros Happ.
  unfold exec, V100.deleteVehicle, tryCatch, bind, gets, modify, persist, ret.
  cbn -[V100.makeApiRequest].
  set (rows := filter _ (localRows "vehicles" w)).
  set (w1 := withApp _ w).
  assert (localRows "vehicles" w1 = rows) as Hrows
    by (apply (localRows_persisted _ _ _ a); done).
  destruct (isOnline w && configured w1).
  - rewrite run_catchTask, !run_bindTask.
    pose proof (makeApiRequest_world_100 net cfg ("/vehicles/" +:+ vehicleId) "DELETE"
                  None w1 noTrace) as (Hw & _).
    destruct (run net (V100.makeApiRequest _ _ _ _ w1) noTrace) as [[w2 [env|e]] tr2];
      cbn in *; by rewrite (localRows_APP "vehicles" w1 w2).
  - cbn. done.
Qed.

Lemma syncCollection_store cfg net (endpoint key idField : string) lastSync
    w a w1 env tr1 rows :
  APP w = Some a →
  exec net (V100.makeApiRequest cfg (endpoint +:+ V100.sinceQuery lastSync) "GET" None) w
    = (w1, Returned env, tr1) →
  env_data env = DataRows rows →
  localRows key (exec net (V100.syncCollection cfg endpoint key idField lastSync) w).1.1
  = mergeData (localRows key w) rows idField.
Proof.
  unfold exec. intros Happ Hpull Hdata.
  pose proof (makeApiRequest_world_100 net cfg
                (endpoint +:+ V100.sinceQuery lastSync) "GET" None w noTrace) as Hw.
  rewrite Hpull in Hw. destruct Hw as (Hw & _). cbn in Hw.
  unfold V100.syncCollection, tryCatch, bind.
  rewrite run_catchTask, run_bindTask, Hpull, Hdata.
  unfold gets, persist, modify. cbn.
  rewrite (localRows_persisted _ _ _ a) by (by rewrite Hw).
  by rewrite (localRows_APP key w w1).
Qed.

(** C3, as the code has it.  The local delete removes every record under
    the id; when the remote delete was rejected and the next pull of the
    vehicles still returns a row under that id, the merge finds the id absent
    locally and appends the row: the Local Store holds the record again. *)
Theorem delete_then_pull_resurrects (cfg : Config)
    (netDelete netPull : nat → Request → FetchOutcome)
    (vehicleId : string) (lastSync : option Z) (w : World) (a : App)
    (w1 : World) (e : JsError) (tr1 : Trace)
    (w2 : World) (env : Envelope) (tr2 : Trace) (rows : list record) (row : record) :
  APP w = Some a →
  exec netDelete (V100.deleteVehicle cfg vehicleId) w = (w1, Threw e, tr1) →
  exec netPull (V100.makeApiRequest cfg ("/vehicles" +:+ V100.sinceQuery lastSync) "GET" None) w1
    = (w2, Returned env, tr2) →
  env_data env = DataRows rows →
  row ∈ rows → row !! "vehicle_id" = Some (VStr vehicleId) →
  Forall (λ v : record, v !! "vehicle_id" ≠ Some (VStr vehicleId)) (localRows "vehicles" w1)
  ∧ row ∈ localRows "vehicles" (exec netPull (V100.syncVehicles cfg lastSync) w1).1.1.
Proof.
  intros Happ Hdel Hpull Hdata Hrow Hid.
  pose proof (deleteVehicle_store cfg netDelete vehicleId w a Happ) as Hstore.
  rewrite Hdel in Hstore. cbn in Hstore.
  assert (Forall (λ v : record, v !! "vehicle_id" ≠ Some (VStr vehicleId))
            (localRows "vehicles" w1)) as Hgone.
  { rewrite Hstore. apply Forall_forall. intros v Hv.
    by apply list_elem_of_filter in Hv as [? _]. }
  split; [done|].
  assert (∃ a1, APP w1 = Some a1) as [a1 Happ1].
  { pose proof (f_equal (λ x, x.1.1) Hdel) as Hw1. cbn in Hw1.
    destruct (APP w1) as [a1|] eqn:E1; [by exists a1|].
    exfalso. revert Hw1 E1.
    unfold exec, V100.deleteVehicle, tryCatch, bind, gets, modify, persist, ret.
    cbn -[V100.makeApiRequest].
    set (w0 := withApp _ w).
    assert (is_Some (APP w0)) as [a0 Ha0] by (unfold w0, withApp; cbn; rewrite Happ; eauto).
    destruct (isOnline w && configured w0).
    - rewrite run_catchTask, !run_bindTask.
      pose proof (makeApiRequest_world_100 netDelete cfg ("/vehicles/" +:+ vehicleId)
                    "DELETE" None w0 noTrace) as (Hw & _).
      destruct (run netDelete (V100.makeApiRequest _ _ _ _ w0) noTrace)
        as [[w3 [env3|e3]] tr3]; cbn in *; intros <-; congruence.
    - cbn. intros <-. congruence. }
  unfold V100.syncVehicles.
  rewrite (syncCollection_store cfg netPull "/vehicles" "vehicles" "vehicle_id" lastSync
             w1 a1 w2 env tr2 rows Happ1 Hpull Hdata).
  rewrite mergeData_shape. apply elem_of_app. right.
  apply list_elem_of_filter. split; [|done].
  intros Hin. apply list_elem_of_fmap in Hin as (v & Hv & Hin).
  rewrite Forall_forall in Hgone. apply (Hgone v Hin).
  unfold idOf in Hv. by rewrite <- Hv.
Qed.

Definition afterFailedDelete : World :=
  (exec netDown (V100.deleteVehicle GOOGLE_CONFIG "v-1") demoWorld).1.1.

Lemma delete_then_pull_resurrects_witness :
  Forall (λ v : record, v !! "vehicle_id" ≠ Some (VStr "v-1"))
    (localRows "vehicles" afterFailedDelete)
  ∧ storedCar ∈
      localRows "vehicles"
        (exec (netServing [storedCar]) (V100.syncVehicles GOOGLE_CONFIG None)
           afterFailedDelete).1.1.
Proof.
  eapply (delete_then_pull_resurrects GOOGLE_CONFIG netDown (netServing [storedCar])
            "v-1" None demoWorld demoApp afterFailedDelete).
  - reflexivity.
  - vm_compute. reflexivity.
  - vm_compute. reflexivity.
  - reflexivity.
  - constructor.
  - vm_compute. reflexivity.
Defined.

(** C3 fails as stated: the vehicle [v-1] is deleted locally, the remote
    delete is rejected after three attempts, and the next pull, which still
    returns the row, puts the vehicle back into the Local Store. *)
Lemma deleted_vehicle_comes_back :
  localRows "vehicles" demoWorld = [storedCar]
  ∧ (exec netDown (V100.deleteVehicle GOOGLE_CONFIG "v-1") demoWorld).1.2
    = Threw (ErrHttp 503 "Service Unavailable")
  ∧ length (requests (exec netDown (V100.deleteVehicle GOOGLE_CONFIG "v-1") demoWorld).2)
    = 3%nat
  ∧ localRows "vehicles" afterFailedDelete = []
  ∧ localRows "vehicles"
      (exec (netServing [storedCar]) (V100.syncVehicles GOOGLE_CONFIG None)
         afterFailedDelete).1.1
    = [storedCar].
Proof. vm_compute. repeat split; reflexivity. Qed.


(** ** The row store: scans with a [since] filter *)

(** A timestamp that is valid and not older than [s]. *)
Definition atOrAfter (s : Z) (d : option Z) : Prop := ∃ t, d = Some t ∧ s ≤ t.

Global Instance atOrAfter_dec s d : Decision (atOrAfter s d).
Proof.
  destruct d as [t|].
  - destruct (decide (s ≤ t)) as [H|H].
    + left. by exists t.
    + right. intros (t' & [= <-] & ?). done.
  - right. by intros (t' & [=] & _).
Defined.

(** A timestamp that is valid and newer than [s]. *)
Definition newerThan (s : Z) (d : option Z) : Prop := ∃ t, d = Some t ∧ s < t.

Global Instance newerThan_dec s d : Decision (newerThan s d).
Proof.
  destruct d as [t|].
  - destruct (decide (s < t)) as [H|H].
    + left. by exists t.
    + right. intros (t' & [= <-] & ?). done.
  - right. by intros (t' & [=] & _).
Defined.




Section scans.
Context (DateParse : string → option Z).


End scans.


(** A store seeded with two vehicles, stamped T0 and T0 + 10 s. *)
Definition T0 : Z := 1755561600000.

Definition emptyVehicles : CodeGs.Sheet :=
  {| CodeGs.header := CodeGs.vehicleHeaders; CodeGs.rows := [] |}.

Definition seededVehicles : CodeGs.Sheet :=
  (CodeGs.addVehicle
     (CodeGs.addVehicle emptyVehicles fordF150 "0b0e7a54-6c1f-4d3a-9a53-0f6f1f3e2a10" T0).1
     storedCar "5f2c9d1e-8a47-4b0c-b1d2-7e3a4c5d6f70" (T0 + 10000)).1.

Definition lastUpdatedOf (obj : gmap string CodeGs.cell) : option Z :=
  CodeGs.newDate parseISO (obj !! "last_updated").

Definition vehicleIdOf (obj : gmap string CodeGs.cell) : option CodeGs.cell :=
  obj !! "vehicle_id".

Example scan_since_example :
  lastUpdatedOf <$> CodeGs.getAllVehicles parseISO seededVehicles None
    = [Some T0; Some (T0 + 10000)]
  ∧ vehicleIdOf <$> CodeGs.getAllVehicles parseISO seededVehicles (Some (Some (T0 + 5000)))
    = [Some (CodeGs.CellValue (VStr "5f2c9d1e-8a47-4b0c-b1d2-7e3a4c5d6f70"))]
  ∧ CodeGs.getAllVehicles parseISO seededVehicles (Some (Some (T0 + 5000)))
    = drop 1 (CodeGs.getAllVehicles parseISO seededVehicles None).
Proof. vm_compute. repeat split; reflexivity. Qed.


(** ** The row store: appends *)

Lemma rowObject_other (headers : list string) row (obj : gmap string CodeGs.cell) (k : string) :
  k ∉ headers → CodeGs.rowObject headers row obj !! k = obj !! k.
Proof.
  revert row obj. induction headers as [|h hs IH]; intros row obj Hk; [done|].
  apply not_elem_of_cons in Hk as [Hne Hk]. cbn [CodeGs.rowObject].
  rewrite IH by done.
  destruct (head row); [by rewrite lookup_insert_ne|by rewrite lookup_delete_ne].
Qed.

Lemma rowObject_fmap (f : string → CodeGs.cell) (headers : list string)
    (obj : gmap string CodeGs.cell) (k : string) :
  k ∈ headers → CodeGs.rowObject headers (f <$> headers) obj !! k = Some (f k).
Proof.
  revert obj. induction headers as [|h hs IH]; intros obj Hk;
    [by apply elem_of_nil in Hk|].
  cbn [CodeGs.rowObject fmap list_fmap head tail].
  destruct (decide (k ∈ hs)) as [Hin|Hout]; [by apply IH|].
  apply elem_of_cons in Hk as [->|Hk]; [|done].
  rewrite rowObject_other by done. by rewrite lookup_insert_eq.
Qed.

(** The object the next scan builds from the last row of the sheet. *)
Definition lastStored (sheet : CodeGs.Sheet) : option (gmap string CodeGs.cell) :=
  (λ row, CodeGs.rowObject (CodeGs.header sheet) row ∅) <$> last (CodeGs.rows sheet).

Lemma orElse_string (s : string) :
  CodeGs.orElse "" (Some (VStr s)) = VStr s.
Proof.
  unfold CodeGs.orElse, truthy. destruct (String.eqb_spec s ""); cbn; congruence.
Qed.

Lemma appendRow_lastStored (sheet : CodeGs.Sheet) (obj : record) (k s : string) :
  k ∈ CodeGs.header sheet → obj !! k = Some (VStr s) →
  ∃ stored, lastStored (CodeGs.appendRow sheet obj) = Some stored
            ∧ stored !! k = Some (CodeGs.CellValue (VStr s)).
Proof.
  intros Hk Hobj. unfold lastStored, CodeGs.appendRow. cbn [CodeGs.rows CodeGs.header].
  rewrite last_snoc. cbn [fmap option_fmap option_map]. eexists. split; [done|].
  rewrite (rowObject_fmap (λ h, CodeGs.CellValue (CodeGs.orElse "" (obj !! h)))) by done.
  by rewrite Hobj, orElse_string.
Qed.

Lemma object_first (k : string) (v : value) (fields : list (string * value)) :
  k ∉ fields.*1 → CodeGs.object ((k, v) :: fields) !! k = Some v.
Proof.
  unfold CodeGs.object, stamp. cbn [foldl fst snd].
  generalize (<[k:=v]> (∅ : record)) (lookup_insert_eq (∅ : record) k v).
  induction fields as [|[k' v'] fields IH]; intros m Hm Hk; [done|].
  rewrite fmap_cons in Hk. apply not_elem_of_cons in Hk as [Hne Hk].
  cbn [foldl fst snd]. apply IH; [|done]. by rewrite lookup_insert_ne.
Qed.

(** What it means for an [add...] function to store and return the new
    record under the id the server generated, whatever the payload says. *)
Definition assignsServerId
    (add : CodeGs.Sheet → record → string → Z → CodeGs.Sheet * record)
    (idField : string) (sheet : CodeGs.Sheet) (data : record) (uuid : string) (now : Z) : Prop :=
  (add sheet data uuid now).2 !! idField = Some (VStr uuid)
  ∧ (add sheet data uuid now).2 !! idField ≠ data !! idField
  ∧ (idField ∈ CodeGs.header sheet →
     ∃ stored, lastStored (add sheet data uuid now).1 = Some stored
               ∧ stored !! idField = Some (CodeGs.CellValue (VStr uuid))).

(** C9. Every append builds the record under the id [generateId()] returns
    and never reads an id from the payload: for a UUID that does not occur
    in the payload, the id of the stored and returned record differs from
    whatever id the client supplied. *)
Theorem append_assigns_server_id (sheet : CodeGs.Sheet) (data : record)
    (uuid : string) (now : Z) :
  map_Forall (λ _ v, v ≠ VStr uuid) data →
  assignsServerId CodeGs.addVehicle "vehicle_id" sheet data uuid now
  ∧ assignsServerId CodeGs.addMaintenance "log_id" sheet data uuid now
  ∧ assignsServerId CodeGs.addReceipt "receipt_id" sheet data uuid now
  ∧ assignsServerId CodeGs.addReminder "reminder_id" sheet data uuid now.
Proof.
  intros Hfresh.
  assert (∀ k : string, Some (VStr uuid) ≠ data !! k) as Hne.
  { intros k E. symmetry in E. by apply (Hfresh k (VStr uuid) E). }
  unfold assignsServerId, CodeGs.addVehicle, CodeGs.addMaintenance, CodeGs.addReceipt,
    CodeGs.addReminder. cbn [fst snd].
  repeat split.
  all: try (rewrite object_first; [apply Hne|]; apply (bool_decide_unpack _); by vm_compute).
  all: try (apply object_first; apply (bool_decide_unpack _); by vm_compute).
  all: intros Hk; apply appendRow_lastStored; [done|].
  all: apply object_first; apply (bool_decide_unpack _); by vm_compute.
Qed.

(** The record the client creates offline, pushed later as it is. *)
Definition pushedVehicle : record := newVehicle offlineWorld fordF150.

Lemma append_assigns_server_id_witness :
  assignsServerId CodeGs.addVehicle "vehicle_id" emptyVehicles pushedVehicle
    "0b0e7a54-6c1f-4d3a-9a53-0f6f1f3e2a10" T0
  ∧ assignsServerId CodeGs.addMaintenance "log_id" emptyVehicles pushedVehicle
      "0b0e7a54-6c1f-4d3a-9a53-0f6f1f3e2a10" T0
  ∧ assignsServerId CodeGs.addReceipt "receipt_id" emptyVehicles pushedVehicle
      "0b0e7a54-6c1f-4d3a-9a53-0f6f1f3e2a10" T0
  ∧ assignsServerId CodeGs.addReminder "reminder_id" emptyVehicles pushedVehicle
      "0b0e7a54-6c1f-4d3a-9a53-0f6f1f3e2a10" T0.
Proof.
  apply (append_assigns_server_id emptyVehicles pushedVehicle
           "0b0e7a54-6c1f-4d3a-9a53-0f6f1f3e2a10" T0).
  apply (bool_decide_unpack _). vm_compute. reflexivity.
Defined.

Example pushed_vehicle_changes_id :
  pushedVehicle !! "vehicle_id" = Some (VStr "mehs1s00k3j9x2")
  ∧ (CodeGs.addVehicle emptyVehicles pushedVehicle
       "0b0e7a54-6c1f-4d3a-9a53-0f6f1f3e2a10" T0).2 !! "vehicle_id"
    = Some (VStr "0b0e7a54-6c1f-4d3a-9a53-0f6f1f3e2a10")
  ∧ vehicleIdOf <$> CodeGs.getAllVehicles parseISO
      (CodeGs.addVehicle emptyVehicles pushedVehicle
         "0b0e7a54-6c1f-4d3a-9a53-0f6f1f3e2a10" T0).1 None
    = [Some (CodeGs.CellValue (VStr "0b0e7a54-6c1f-4d3a-9a53-0f6f1f3e2a10"))].
Proof. vm_compute. repeat split; reflexivity. Qed.

(** ** Two syncs requested back to back *)

Definition twoSyncs (cfg : Config) (w : World) : Loop bool :=
  call (V104.syncData cfg) (call (V104.syncData cfg) (idle w)).


Definition always_ok (net : nat → Request → FetchOutcome) : Prop :=
  ∀ (n : nat) (req : Request), errorOf (net n req) = None.

Lemma errorOf_None o :
  errorOf o = None →
  ∃ status statusText env,
    o = FetchResponse status statusText (JsonObject env)
    ∧ response_ok status = true
    ∧ bool_decide (env_status env = Some "error") = false.
Proof.
  destruct o as [msg|status statusText body]; cbn; [done|].
  destruct (response_ok status) eqn:Hok; [|done].
  destruct body as [| |env]; [done|done|].
  destruct (bool_decide (env_status env = Some "error")) eqn:Hst; [done|].
  intros _. by eexists _, _, _.
Qed.

Section two_syncs.
Context (cfg : Config) (net : nat → Request → FetchOutcome) (url : string).
Context (Hurl : url ≠ "") (Hretry : (0 < retryAttempts cfg)%nat) (Hnet : always_ok net).

Definition reqTest : Request := V104.buildRequest url "" "GET" None.
Definition reqPull : Request := V104.buildRequest url "vehicles" "GET" None.

(** A parked continuation that returns [true] once its pull is answered,
    and one that sends the pull once its connectivity test is answered. *)
Definition finishes (k : FetchOutcome → World → Task bool) : Prop :=
  ∀ o w', errorOf o = None → webAppUrl w' = url →
    ∃ w'', k o w' = Done w'' (Returned true) ∧ webAppUrl w'' = url.

Definition pullsNext (k : FetchOutcome → World → Task bool) : Prop :=
  ∀ o w', errorOf o = None → webAppUrl w' = url →
    ∃ k2, k o w' = AwaitFetch w' reqPull k2 ∧ finishes k2.

Lemma makeApiRequest_answered (action : string) w :
  webAppUrl w = url →
  ∃ k, V104.makeApiRequest cfg action "GET" None w
       = AwaitFetch w (V104.buildRequest url action "GET" None) k
       ∧ ∀ o w', errorOf o = None → ∃ env, k o w' = Done w' (Returned env).
Proof.
  intros Hw. unfold V104.makeApiRequest, bind, gets. cbn [bindTask]. rewrite Hw.
  destruct (String.eqb_spec url "") as [?|_]; [done|].
  destruct (retryAttempts cfg) as [|n] eqn:Hn; [lia|].
  cbn [retryLoop]. unfold tryCatch, V104.attemptOnce, bind, fetch.
  cbn [bindTask catchTask]. eexists. split; [reflexivity|].
  intros o w' Ho. apply errorOf_None in Ho as (status & statusText & env & -> & Hok & Hst).
  cbn. rewrite Hok. cbn. rewrite Hst. cbn. by eexists.
Qed.

Lemma syncVehicles_answered w :
  webAppUrl w = url →
  ∃ k, V104.syncVehicles cfg w = AwaitFetch w reqPull k
       ∧ ∀ o w', errorOf o = None → webAppUrl w' = url →
           ∃ w'', k o w' = Done w'' (Returned tt) ∧ webAppUrl w'' = url.
Proof.
  intros Hw. unfold V104.syncVehicles, tryCatch, bind.
  destruct (makeApiRequest_answered "vehicles" w Hw) as (k & -> & Hk).
  cbn [bindTask catchTask]. eexists. split; [reflexivity|].
  intros o w' Ho Hw'. destruct (Hk o w' Ho) as (env & ->).
  cbn [bindTask catchTask].
  destruct (env_data env); cbn; eexists; split; try reflexivity; done.
Qed.

Lemma syncData_starts w :
  isOnline w = true → webAppUrl w = url →
  ∃ k, V104.syncData cfg w = AwaitFetch (withApp (setLoading true) w) reqTest k
       ∧ pullsNext k.
Proof.
  intros Hon Hw.
  unfold V104.syncData, tryFinally, tryCatch, bind, gets, modify, ret.
  cbn -[V104.makeApiRequest V104.syncVehicles].
  rewrite Hon. unfold configured. rewrite Hw.
  destruct (String.eqb_spec url "") as [?|_]; [done|].
  cbn -[V104.makeApiRequest V104.syncVehicles].
  destruct (makeApiRequest_answered "" (withApp (setLoading true) w)) as (k & -> & Hk);
    [done|].
  cbn -[V104.makeApiRequest V104.syncVehicles].
  eexists. split; [reflexivity|].
  intros o w' Ho Hw'. destruct (Hk o w' Ho) as (env & ->).
  cbn -[V104.makeApiRequest V104.syncVehicles].
  destruct (syncVehicles_answered w' Hw') as (k2 & -> & Hk2).
  cbn -[V104.makeApiRequest V104.syncVehicles].
  eexists. split; [reflexivity|].
  intros o2 w2 Ho2 Hw2. destruct (Hk2 o2 w2 Ho2 Hw2) as (w3 & -> & Hw3).
  cbn. eexists. split; [reflexivity|]. done.
Qed.

(** Where a sync task stands: awaiting the connectivity test (0), awaiting
    the pull (1), settled (2). *)
Inductive Stage : Parked bool → nat → Prop :=
| StageTesting n k : pullsNext k → Stage (OnFetch n reqTest k) 0
| StagePulling n k : finishes k → Stage (OnFetch n reqPull k) 1
| StageDone : Stage (Settled (Returned true)) 2.

(** The pulls a task at a stage has sent. *)
Definition pullsAt (stage : nat) : nat :=
  match stage with
  | O => 0
  | S _ => 1
  end.

Definition pullUrl : string := url +:+ "?action=vehicles".

Lemma reqTest_url : req_url reqTest = url.
Proof. reflexivity. Qed.

Lemma reqPull_url : req_url reqPull = pullUrl.
Proof. reflexivity. Qed.

Lemma append_not_self (a b : string) : b ≠ "" → a +:+ b ≠ a.
Proof.
  intros Hb E. induction a as [|c a IH]; cbn in E; [done|].
  injection E as E. by apply IH.
Qed.

Lemma pullsOf_snoc (u : string) out r :
  pullsOf u (out ++ [r]) = (pullsOf u out + (if decide (req_url r = u) then 1 else 0))%nat.
Proof.
  unfold pullsOf. rewrite filter_app, length_app. f_equal.
  destruct (decide (req_url r = u)).
  - by rewrite filter_cons_True.
  - by rewrite filter_cons_False.
Qed.

Lemma resume_stage n req k stage w out :
  Stage (OnFetch n req k) stage → webAppUrl w = url →
  ∃ w' p' out',
    park (k (net n req) w) out = (w', p', out')
    ∧ webAppUrl w' = url ∧ Stage p' (S stage)
    ∧ (pullsOf pullUrl out' + pullsAt stage
       = pullsOf pullUrl out + pullsAt (S stage))%nat.
Proof.
  intros Hst Hw. inversion Hst as [n' k' Hk|n' k' Hk|]; subst.
  - destruct (Hk (net n reqTest) w (Hnet _ _) Hw) as (k2 & -> & Hk2).
    eexists _, _, _. cbn [park]. split; [reflexivity|]. split; [done|].
    split; [by constructor|].
    rewrite pullsOf_snoc, reqPull_url. rewrite decide_True by done. cbn. lia.
  - destruct (Hk (net n reqPull) w (Hnet _ _) Hw) as (w'' & -> & Hw'').
    eexists _, _, _. cbn [park]. split; [reflexivity|]. split; [done|].
    split; [by constructor|]. cbn. lia.
Qed.

(** Two sync tasks in flight, at the given stages, on a world under the
    configured URL. *)
Definition InFlight (s1 s2 : nat) (lp : Loop bool) : Prop :=
  webAppUrl (world lp) = url
  ∧ ∃ p1 p2,
      tasks lp = [p1; p2] ∧ Stage p1 s1 ∧ Stage p2 s2
      ∧ pullsOf pullUrl (sent lp) = (pullsAt s1 + pullsAt s2)%nat.

Lemma twoSyncs_in_flight w :
  isOnline w = true → webAppUrl w = url →
  InFlight 0 0 (twoSyncs cfg w) ∧ sent (twoSyncs cfg w) = [reqTest; reqTest].
Proof.
  intros Hon Hw. unfold twoSyncs, call, idle. cbn [world tasks sent].
  destruct (syncData_starts w Hon Hw) as (k1 & -> & Hk1).
  cbn [park world tasks sent app length].
  destruct (syncData_starts (withApp (setLoading true) w) Hon Hw) as (k2 & -> & Hk2).
  cbn [park world tasks sent app length].
  split; [|done]. split; [done|].
  eexists _, _. split; [done|].
  split; [by constructor|]. split; [by constructor|].
  cbn [sent]. unfold pullsOf.
  assert (req_url reqTest ≠ pullUrl) as Hne.
  { rewrite reqTest_url. intros E. symmetry in E. revert E. by apply append_not_self. }
  by rewrite !filter_cons_False.
Qed.

Lemma settle_first s1 s2 lp :
  InFlight s1 s2 lp → InFlight (Nat.min 2 (S s1)) s2 (settle net 0 lp).
Proof.
  intros (Hw & p1 & p2 & Ht & H1 & H2 & Hc).
  unfold settle. rewrite Ht. cbn [lookup list_lookup].
  destruct p1 as [r|n req k|ms k]; [|  |by inversion H1].
  - inversion H1; subst. cbn. split; [done|]. by exists (Settled (Returned true)), p2.
  - destruct (resume_stage n req k s1 (world lp) (sent lp) H1 Hw)
      as (w' & p' & out' & -> & Hw' & Hst & Hcount).
    assert (S s1 ≤ 2)%nat by (inversion H1; lia).
    rewrite Nat.min_r by done.
    split; [done|]. exists p', p2. cbn [world tasks sent].
    repeat split; try done. lia.
Qed.

Lemma settle_second s1 s2 lp :
  InFlight s1 s2 lp → InFlight s1 (Nat.min 2 (S s2)) (settle net 1 lp).
Proof.
  intros (Hw & p1 & p2 & Ht & H1 & H2 & Hc).
  unfold settle. rewrite Ht. cbn [lookup list_lookup].
  destruct p2 as [r|n req k|ms k]; [|  |by inversion H2].
  - inversion H2; subst. cbn. split; [done|]. by exists p1, (Settled (Returned true)).
  - destruct (resume_stage n req k s2 (world lp) (sent lp) H2 Hw)
      as (w' & p' & out' & -> & Hw' & Hst & Hcount).
    assert (S s2 ≤ 2)%nat by (inversion H2; lia).
    rewrite Nat.min_r by done.
    split; [done|]. exists p1, p'. cbn [world tasks sent].
    repeat split; try done. lia.
Qed.

Lemma settle_in_flight (i : nat) s1 s2 lp :
  InFlight s1 s2 lp → ∃ s1' s2', InFlight s1' s2' (settle net i lp).
Proof.
  intros Hlp. destruct i as [|[|i]].
  - eexists _, _. by apply settle_first.
  - eexists _, _. by apply settle_second.
  - exists s1, s2. destruct Hlp as (Hw & p1 & p2 & Ht & H1 & H2 & Hc).
    unfold settle. rewrite Ht. cbn.
    split; [done|]. by exists p1, p2.
Qed.

Lemma settleAll_in_flight schedule s1 s2 lp :
  InFlight s1 s2 lp → ∃ s1' s2', InFlight s1' s2' (settleAll net schedule lp).
Proof.
  revert s1 s2 lp. induction schedule as [|i schedule IH]; intros s1 s2 lp Hlp;
    [by exists s1, s2|].
  unfold settleAll in *. cbn [foldl].
  destruct (settle_in_flight i s1 s2 lp Hlp) as (s1' & s2' & Hlp').
  by apply (IH s1' s2').
Qed.

Lemma in_flight_settled s1 s2 lp :
  InFlight s1 s2 lp → forallb isSettled (tasks lp) = true →
  pullsOf pullUrl (sent lp) = 2%nat.
Proof.
  intros (Hw & p1 & p2 & Ht & H1 & H2 & Hc) Hall.
  rewrite Ht in Hall. cbn in Hall.
  inversion H1; subst; try done. inversion H2; subst; try done.
Qed.

Lemma in_flight_done lp :
  InFlight 2 2 lp → tasks lp = [Settled (Returned true); Settled (Returned true)].
Proof.
  intros (Hw & p1 & p2 & Ht & H1 & H2 & Hc).
  inversion H1; subst. inversion H2; subst. done.
Qed.

End two_syncs.

(** C4, as the code has it.  Nothing gates re-entry: a second sync
    requested while the first awaits its connectivity test sends its own
    test at once, both syncs are then in flight, and against a backend that
    answers every request each of them sends its own pull of the vehicles —
    two pulls in total once both have settled, in whatever order the
    responses arrive. *)
Theorem two_syncs_each_pull (cfg : Config) (net : nat → Request → FetchOutcome)
    (w : World) (schedule : list nat) :
  isOnline w = true → webAppUrl w ≠ "" → (0 < retryAttempts cfg)%nat → always_ok net →
  sent (twoSyncs cfg w) = [reqTest (webAppUrl w); reqTest (webAppUrl w)]
  ∧ isSettled <$> tasks (twoSyncs cfg w) = [false; false]
  ∧ (forallb isSettled (tasks (settleAll net schedule (twoSyncs cfg w))) = true →
     pullsOf (pullUrl (webAppUrl w)) (sent (settleAll net schedule (twoSyncs cfg w))) = 2%nat)
  ∧ tasks (settleAll net [0; 1; 0; 1]%nat (twoSyncs cfg w))
    = [Settled (Returned true); Settled (Returned true)].
Proof.
  intros Hon Hurl Hretry Hnet.
  destruct (twoSyncs_in_flight cfg (webAppUrl w) Hurl Hretry w Hon eq_refl) as [Hin Hsent].
  split; [done|]. split.
  { destruct Hin as (_ & p1 & p2 & -> & H1 & H2 & _).
    inversion H1; subst. inversion H2; subst. done. }
  split.
  - intros Hall.
    destruct (settleAll_in_flight cfg net (webAppUrl w) Hretry Hnet schedule 0 0 _ Hin)
      as (s1 & s2 & Hend).
    by apply (in_flight_settled (webAppUrl w) s1 s2).
  - apply (in_flight_done (webAppUrl w)).
    unfold settleAll. cbn [foldl].
    apply (settle_second cfg net (webAppUrl w) Hretry Hnet 2 1).
    apply (settle_first cfg net (webAppUrl w) Hretry Hnet 1 1).
    apply (settle_second cfg net (webAppUrl w) Hretry Hnet 1 0).
    apply (settle_first cfg net (webAppUrl w) Hretry Hnet 0 0).
    done.
Qed.

Lemma two_syncs_each_pull_witness :
  sent (twoSyncs GOOGLE_CONFIG demoWorld)
    = [reqTest (webAppUrl demoWorld); reqTest (webAppUrl demoWorld)]
  ∧ isSettled <$> tasks (twoSyncs GOOGLE_CONFIG demoWorld) = [false; false]
  ∧ (forallb isSettled
       (tasks (settleAll (netServing [storedCar]) [1; 0; 0; 1]%nat
                 (twoSyncs GOOGLE_CONFIG demoWorld))) = true →
     pullsOf (pullUrl (webAppUrl demoWorld))
       (sent (settleAll (netServing [storedCar]) [1; 0; 0; 1]%nat
                (twoSyncs GOOGLE_CONFIG demoWorld))) = 2%nat)
  ∧ tasks (settleAll (netServing [storedCar]) [0; 1; 0; 1]%nat
             (twoSyncs GOOGLE_CONFIG demoWorld))
    = [Settled (Returned true); Settled (Returned true)].
Proof.
  apply (two_syncs_each_pull GOOGLE_CONFIG (netServing [storedCar]) demoWorld
           [1; 0; 0; 1]%nat).
  - reflexivity.
  - discriminate.
  - cbn. lia.
  - intros n req. reflexivity.
Defined.

(** C4 fails as stated: two syncs requested back to back on a connected
    client send two connectivity tests at once and, once answered, two pulls
    of the vehicles. *)
Lemma two_syncs_two_pulls :
  length (sent (twoSyncs GOOGLE_CONFIG demoWorld)) = 2%nat
  ∧ isSettled <$> tasks (twoSyncs GOOGLE_CONFIG demoWorld) = [false; false]
  ∧ isSettled <$> tasks (settleAll (netServing [storedCar]) [0; 1; 0; 1]%nat
                           (twoSyncs GOOGLE_CONFIG demoWorld)) = [true; true]
  ∧ req_url <$> sent (settleAll (netServing [storedCar]) [0; 1; 0; 1]%nat
                        (twoSyncs GOOGLE_CONFIG demoWorld))
    = ["https://script.example/exec"; "https://script.example/exec";
       "https://script.example/exec?action=vehicles";
       "https://script.example/exec?action=vehicles"]
  ∧ pullsOf "https://script.example/exec?action=vehicles"
      (sent (settleAll (netServing [storedCar]) [0; 1; 0; 1]%nat
               (twoSyncs GOOGLE_CONFIG demoWorld))) = 2%nat.
Proof. vm_compute. repeat split; reflexivity. Qed.

(** * Further properties of the code *)

(** ** More on the merge *)

Section merge_more.
Context (k : string).
Implicit Types (L R M S : list record) (l r m : record).

Lemma sublist_same_id_nil S R l :
  S `sublist_of` R → Forall (λ r, r !! k = l !! k) S →
  Forall (λ r, r !! k ≠ l !! k) R → S = [].
Proof.
  intros Hsub Hsame Hnone. destruct S as [|r S]; [done|].
  apply Forall_cons_1 in Hsame as [E _].
  rewrite Forall_forall in Hnone. exfalso. apply (Hnone r); [|done].
  eapply elem_of_sublist; [|exact Hsub]. apply elem_of_cons. by left.
Qed.

Lemma patchAll_untouched Rs L (i : nat) l :
  L !! i = Some l → Forall (λ r, r !! k ≠ l !! k) Rs →
  patchAll k Rs L !! i = Some l.
Proof.
  intros Hi Hnone.
  destruct (patchAll_lookup k Rs L i l Hi) as (S & Hlook & Hsub & Hsame).
  by rewrite Hlook, (sublist_same_id_nil S Rs l).
Qed.

Lemma patchAll_later_duplicate Rs L (i j : nat) l l' :
  (i < j)%nat → L !! i = Some l → L !! j = Some l' → l' !! k = l !! k →
  patchAll k Rs L !! j = Some l'.
Proof.
  revert Rs i j. induction L as [|m M IH]; intros Rs i j Hij Hi Hj E; [done|].
  rewrite patchAll_cons. destruct j as [|j]; [lia|]. cbn in Hj |- *.
  destruct i as [|i]; cbn in Hi.
  - injection Hi as ->. apply patchAll_untouched; [done|].
    apply Forall_forall. intros r Hr. apply list_elem_of_filter in Hr as [Hne _].
    by rewrite E.
  - apply (IH _ i j); [lia|done..].
Qed.

End merge_more.

(** X1. Convergence on disjoint ids: when no remote item carries an id the
    local list holds, the merge is the local list followed by the remote
    list, so it has [|L| + |R|] entries and no record is changed. *)
Theorem mergeData_disjoint (L R : list record) (k : string) :
  Forall (λ r : record, r !! k ∉ idOf k <$> L) R →
  mergeData L R k = L ++ R
  ∧ length (mergeData L R k) = (length L + length R)%nat.
Proof.
  intros Hdis.
  assert (mergeData L R k = L ++ R) as ->.
  { rewrite mergeData_shape. rewrite (filter_all _ R Hdis).
    rewrite (filter_none (λ r, r !! k ∈ idOf k <$> L) R).
    - done.
    - eapply Forall_impl; [exact Hdis|]. simpl. tauto. }
  by rewrite length_app.
Qed.

Lemma mergeData_disjoint_witness :
  mergeData [storedCar] [dup_first] "vehicle_id" = [storedCar] ++ [dup_first]
  ∧ length (mergeData [storedCar] [dup_first] "vehicle_id")
    = (length [storedCar] + length [dup_first])%nat.
Proof.
  apply (mergeData_disjoint [storedCar] [dup_first] "vehicle_id").
  apply (bool_decide_unpack _). vm_compute. reflexivity.
Defined.

(** X2. The merge neither drops nor invents an id: the ids of the merged
    list are the local ids, in place, followed by the ids of the appended
    remote items; an id is in the merged list exactly when it is in the
    local or in the remote list. *)
Theorem mergeData_ids (L R : list record) (k : string) :
  idOf k <$> mergeData L R k
  = (idOf k <$> L) ++ (idOf k <$> filter (λ r : record, r !! k ∉ idOf k <$> L) R)
  ∧ ∀ i : option value,
      i ∈ idOf k <$> mergeData L R k ↔ i ∈ idOf k <$> L ∨ i ∈ idOf k <$> R.
Proof.
  assert (idOf k <$> mergeData L R k
          = (idOf k <$> L) ++ (idOf k <$> filter (λ r : record, r !! k ∉ idOf k <$> L) R))
    as Hids by (by rewrite mergeData_shape, fmap_app, patchAll_ids).
  split; [done|]. intros i. rewrite Hids, elem_of_app. split.
  - intros [?|Hin]; [by left|right].
    apply list_elem_of_fmap in Hin as (r & -> & Hr).
    apply list_elem_of_filter in Hr as [_ Hr].
    apply list_elem_of_fmap. by exists r.
  - intros [?|Hin]; [by left|].
    destruct (decide (i ∈ idOf k <$> L)) as [?|Hn]; [by left|right].
    apply list_elem_of_fmap in Hin as (r & -> & Hr).
    apply list_elem_of_fmap. exists r. split; [done|].
    by apply list_elem_of_filter.
Qed.

(** X3. A local record no remote item names stays at its position exactly
    as it was (items not yet pushed survive a pull). *)
Theorem mergeData_local_only_untouched (L R : list record) (k : string)
    (i : nat) (l : record) :
  L !! i = Some l → Forall (λ r : record, r !! k ≠ l !! k) R →
  mergeData L R k !! i = Some l.
Proof.
  intros Hi Hnone. rewrite mergeData_shape.
  rewrite lookup_app_l by (rewrite patchAll_length; by eapply lookup_lt_Some).
  apply patchAll_untouched; [done|].
  apply Forall_forall. intros r Hr. apply list_elem_of_filter in Hr as [_ Hr].
  rewrite Forall_forall in Hnone. by apply Hnone.
Qed.

Lemma mergeData_local_only_untouched_witness :
  mergeData [storedCar; ex_local] [ex_remote] "id" !! 0%nat = Some storedCar.
Proof.
  apply (mergeData_local_only_untouched [storedCar; ex_local] [ex_remote] "id" 0 storedCar).
  - reflexivity.
  - apply (bool_decide_unpack _). vm_compute. reflexivity.
Defined.

(** X4. Of several local records under one id only the first is ever
    patched: a later one comes out of the merge unchanged, whatever the
    remote list holds. *)
Theorem mergeData_patches_first_only (L R : list record) (k : string)
    (i j : nat) (l l' : record) :
  (i < j)%nat → L !! i = Some l → L !! j = Some l' → l' !! k = l !! k →
  mergeData L R k !! j = Some l'.
Proof.
  intros Hij Hi Hj E. rewrite mergeData_shape.
  rewrite lookup_app_l by (rewrite patchAll_length; by eapply lookup_lt_Some).
  by apply (patchAll_later_duplicate k _ L i j l l').
Qed.

Lemma mergeData_patches_first_only_witness :
  mergeData [dup_first; dup_second] [ex_remote] "id" !! 1%nat = Some dup_second.
Proof.
  apply (mergeData_patches_first_only [dup_first; dup_second] [ex_remote] "id"
           0 1 dup_first dup_second).
  - lia.
  - reflexivity.
  - reflexivity.
  - vm_compute. reflexivity.
Defined.

(** X5. Several remote items under the id of one local record are laid
    over it in remote order, so the last one wins: its fields are the
    fields of the merged record. *)
Theorem mergeData_last_remote_wins (l r : record) (R : list record) (k : string) :
  Forall (λ x : record, x !! k = l !! k) (R ++ [r]) →
  mergeData [l] (R ++ [r]) k = [spread (overlay R l) r]
  ∧ ∀ (f : string) (v : value), r !! f = Some v →
      spread (overlay R l) r !! f = Some v.
Proof.
  intros Hsame. split.
  - rewrite mergeData_shape.
    assert (Forall (λ x : record, x !! k ∈ idOf k <$> [l]) (R ++ [r])) as Hin.
    { eapply Forall_impl; [exact Hsame|]. intros x Hx. cbn beta in *. rewrite Hx.
      apply list_elem_of_fmap. exists l. split; [done|]. apply elem_of_cons. by left. }
    rewrite (filter_all _ _ Hin).
    rewrite (filter_none (λ x, x !! k ∉ idOf k <$> [l])); last first.
    { eapply Forall_impl; [exact Hin|]. simpl. tauto. }
    rewrite app_nil_r, patchAll_cons, patchAll_nil.
    rewrite (filter_all _ _ Hsame). by rewrite overlay_snoc.
  - intros f v Hf. unfold spread. by apply lookup_union_Some_l.
Qed.

Lemma mergeData_last_remote_wins_witness :
  mergeData [ex_local] ([dup_first] ++ [dup_second]) "id"
    = [spread (overlay [dup_first] ex_local) dup_second]
  ∧ ∀ (f : string) (v : value), dup_second !! f = Some v →
      spread (overlay [dup_first] ex_local) dup_second !! f = Some v.
Proof.
  apply (mergeData_last_remote_wins ex_local dup_second [dup_first] "id").
  apply (bool_decide_unpack _). vm_compute. reflexivity.
Defined.

(** ** More on the API client *)

(** How one attempt settles, by revision, as a function of what [fetch]
    brought back. *)
Definition attempt104 (o : FetchOutcome) : Completion Envelope :=
  match errorOf o, o with
  | Some e, _ => Threw e
  | None, FetchResponse _ _ (JsonObject env) => Returned env
  | None, _ => Threw ErrType
  end.

Definition attempt100 (o : FetchOutcome) : Completion Envelope :=
  match o with
  | FetchRejected msg => Threw (ErrTransport msg)
  | FetchResponse status statusText body =>
      if response_ok status then
        match body with
        | BadJson => Threw ErrParse
        | JsonNull => Threw ErrType
        | JsonObject env =>
            match env_error env with
            | Some msg => if String.eqb msg "" then Returned env else Threw (ErrApi msg)
            | None => Returned env
            end
        end
      else Threw (ErrHttp status statusText)
  end.

Definition sendOne (req : Request) (tr : Trace) : Trace :=
  {| requests := requests tr ++ [req]; timers := timers tr |}.

(** An attempt that sends [req] once, leaves the world alone and settles as
    [settles] says of the outcome. *)
Definition attemptOf {A : Type} (net : nat → Request → FetchOutcome)
    (once : Async A) (req : Request) (settles : FetchOutcome → Completion A) : Prop :=
  ∀ w tr, run net (once w) tr
          = (w, settles (net (length (requests tr)) req), sendOne req tr).

Lemma attemptOf_104 net req : attemptOf net (V104.attemptOnce req) req attempt104.
Proof.
  intros w tr. unfold V104.attemptOnce, bind, attempt104, sendOne. cbn.
  destruct (net _ req) as [msg|status statusText body]; cbn; [done|].
  destruct (response_ok status); cbn; [|done].
  destruct body as [| |env]; cbn; [done|done|].
  case_bool_decide; done.
Qed.

Lemma attemptOf_100 net req : attemptOf net (V100.attemptOnce req) req attempt100.
Proof.
  intros w tr. unfold V100.attemptOnce, bind, attempt100, sendOne. cbn.
  destruct (net _ req) as [msg|status statusText body]; cbn; [done|].
  destruct (response_ok status); cbn; [|done].
  destruct body as [| |env]; cbn; [done|done|].
  destruct (env_error env) as [msg|]; [|done].
  by destruct (String.eqb msg "").
Qed.

Definition backoff (cfg : Config) (attempt count : nat) : list Z :=
  (λ i, retryDelay cfg * Z.of_nat i) <$> seq attempt count.

Definition ticks (ds : list Z) (w : World) : World := foldl (λ w ms, tick ms w) w ds.

Section retry_more.
Context {A : Type} (net : nat → Request → FetchOutcome) (cfg : Config).
Context (once : Async A) (req : Request) (settles : FetchOutcome → Completion A).
Context (Honce : attemptOf net once req settles).

(** [j] failed attempts, then a success, within the turns allowed. *)
Lemma run_retryLoop_recover (j remaining attempt : nat) lastError w tr (a : A) :
  (j < remaining)%nat → (attempt + remaining = S (retryAttempts cfg))%nat →
  (∀ i, (i < j)%nat → ∃ e, settles (net (length (requests tr) + i)%nat req) = Threw e) →
  settles (net (length (requests tr) + j)%nat req) = Returned a →
  run net (retryLoop cfg once remaining attempt lastError w) tr
  = (ticks (backoff cfg attempt j) w, Returned a,
     {| requests := requests tr ++ replicate (S j) req;
        timers := timers tr ++ backoff cfg attempt j |}).
Proof.
  revert remaining attempt lastError w tr.
  induction j as [|j IH]; intros remaining attempt lastError w tr Hj Hsum Hfail Hok.
  - destruct remaining as [|remaining]; [lia|].
    cbn [retryLoop]. unfold tryCatch. rewrite run_catchTask, Honce.
    rewrite Nat.add_0_r in Hok. rewrite Hok. unfold sendOne, backoff, ticks. cbn.
    by rewrite app_nil_r.
  - destruct remaining as [|remaining]; [lia|].
    cbn [retryLoop]. unfold tryCatch. rewrite run_catchTask, Honce.
    destruct (Hfail 0%nat) as [e He]; [lia|]. rewrite Nat.add_0_r in He. rewrite He.
    unfold bind. destruct (Nat.ltb_spec attempt (retryAttempts cfg)) as [_|?]; [|lia].
    cbn [sleep bindTask run].
    rewrite (IH remaining (S attempt)); cbn [requests timers sendOne].
    + unfold backoff, ticks. cbn [seq fmap list_fmap foldl replicate].
      by rewrite <- !app_assoc.
    + lia.
    + lia.
    + intros i Hi. rewrite length_app. cbn [length].
      destruct (Hfail (S i)) as [e' He']; [lia|]. exists e'.
      by replace (length (requests tr) + 1 + i)%nat with (length (requests tr) + S i)%nat by lia.
    + rewrite length_app. cbn [length].
      by replace (length (requests tr) + 1 + j)%nat with (length (requests tr) + S j)%nat by lia.
Qed.

(** Every attempt fails. *)
Lemma run_retryLoop_exhaust (remaining attempt : nat) lastError w tr :
  (attempt + remaining = S (retryAttempts cfg))%nat →
  (∀ i, ∃ e, settles (net i req) = Threw e) →
  ∃ e, run net (retryLoop cfg once remaining attempt lastError w) tr
       = (ticks (backoff cfg attempt (pred remaining)) w, Threw e,
          {| requests := requests tr ++ replicate remaining req;
             timers := timers tr ++ backoff cfg attempt (pred remaining) |}).
Proof.
  intros Hsum Hfail. revert attempt lastError w tr Hsum.
  induction remaining as [|r IH]; intros attempt lastError w tr Hsum.
  - exists lastError. cbn. rewrite !app_nil_r. by destruct tr.
  - cbn [retryLoop]. unfold tryCatch. rewrite run_catchTask, Honce.
    destruct (Hfail (length (requests tr))) as [e ->]. unfold bind.
    destruct (Nat.ltb_spec attempt (retryAttempts cfg)) as [Hlt|Hge].
    + cbn [sleep bindTask run].
      destruct (IH (S attempt) e (tick (retryDelay cfg * Z.of_nat attempt) w)
                  {| requests := requests (sendOne req tr);
                     timers := timers (sendOne req tr) ++ [retryDelay cfg * Z.of_nat attempt] |})
        as [e' He']; [lia|].
      exists e'. rewrite He'. cbn [requests timers sendOne pred].
      destruct r as [|r]; [lia|]. cbn [pred].
      unfold backoff, ticks. cbn [seq fmap list_fmap foldl replicate].
      by rewrite <- !app_assoc.
    + assert (r = 0%nat) as -> by lia. cbn. exists e.
      unfold sendOne, backoff, ticks. cbn. by rewrite !app_nil_r.
Qed.

End retry_more.

(** X6. Without a configured URL the client never touches the network:
    [makeApiRequest] of either revision rejects at once with the
    configuration error, no request sent, no timer set, the world as it
    was. *)
Theorem makeApiRequest_unconfigured (cfg : Config) (net : nat → Request → FetchOutcome)
    (action method : string) (data : option record) (w : World) :
  webAppUrl w = "" →
  exec net (V104.makeApiRequest cfg action method data) w = (w, Threw ErrNotConfigured, noTrace)
  ∧ exec net (V100.makeApiRequest cfg action method data) w = (w, Threw ErrNotConfigured, noTrace).
Proof.
  intros Hurl. unfold exec, V104.makeApiRequest, V100.makeApiRequest, bind, gets.
  cbn [bindTask]. rewrite Hurl. done.
Qed.

Definition unconfiguredWorld : World :=
  {| webAppUrl := ""; isOnline := true; lastSyncTime := None;
     clock := 1755561600000; entropy := ["k3j9x2"]; APP := Some demoApp |}.

Lemma makeApiRequest_unconfigured_witness :
  exec netDown (V104.makeApiRequest GOOGLE_CONFIG "vehicles" "GET" None) unconfiguredWorld
    = (unconfiguredWorld, Threw ErrNotConfigured, noTrace)
  ∧ exec netDown (V100.makeApiRequest GOOGLE_CONFIG "vehicles" "GET" None) unconfiguredWorld
    = (unconfiguredWorld, Threw ErrNotConfigured, noTrace).
Proof.
  apply (makeApiRequest_unconfigured GOOGLE_CONFIG netDown "vehicles" "GET" None
           unconfiguredWorld).
  reflexivity.
Defined.

(** X7. Recovery within the bound (revision 1.0.4): when the first [j]
    attempts fail and the next one is answered with a sound envelope,
    [j < retryAttempts], the call resolves with that envelope after exactly
    [j + 1] requests, having waited [retryDelay * 1], ..., [retryDelay * j]
    (linear backoff) in between. *)
Theorem makeApiRequest_recovers (cfg : Config) (net : nat → Request → FetchOutcome)
    (action method : string) (data : option record) (w : World)
    (j : nat) (status : Z) (statusText : string) (env : Envelope) :
  webAppUrl w ≠ "" → (j < retryAttempts cfg)%nat →
  (∀ i, (i < j)%nat →
     is_Some (errorOf (net i (V104.buildRequest (webAppUrl w) action method data)))) →
  net j (V104.buildRequest (webAppUrl w) action method data)
    = FetchResponse status statusText (JsonObject env) →
  response_ok status = true → env_status env ≠ Some "error" →
  exec net (V104.makeApiRequest cfg action method data) w
  = (ticks (backoff cfg 1 j) w, Returned env,
     {| requests := replicate (S j) (V104.buildRequest (webAppUrl w) action method data);
        timers := backoff cfg 1 j |}).
Proof.
  intros Hurl Hj Hfail Hresp Hok Hst.
  unfold exec, V104.makeApiRequest, bind, gets. cbn [bindTask].
  destruct (String.eqb_spec (webAppUrl w) "") as [?|_]; [done|].
  rewrite (run_retryLoop_recover net cfg _ _ attempt104 (attemptOf_104 net _) j _ _ _ _ _ env).
  - done.
  - done.
  - lia.
  - intros i Hi. cbn [noTrace requests length Nat.add].
    destruct (Hfail i Hi) as [e He]. exists e. unfold attempt104. by rewrite He.
  - cbn [noTrace requests length Nat.add]. unfold attempt104. rewrite Hresp.
    cbn. rewrite Hok. by rewrite bool_decide_eq_false_2.
Qed.

(** A network that fails the first request and answers the later ones. *)
Definition netFlaky (rows : list record) : nat → Request → FetchOutcome :=
  λ n req, match n with
           | O => FetchRejected "Failed to fetch"
           | S _ => netServing rows n req
           end.

Lemma makeApiRequest_recovers_witness :
  exec (netFlaky [storedCar]) (V104.makeApiRequest GOOGLE_CONFIG "vehicles" "GET" None) demoWorld
  = (ticks (backoff GOOGLE_CONFIG 1 1) demoWorld,
     Returned {| env_status := Some "ok"; env_message := None;
                 env_error := None; env_data := DataRows [storedCar] |},
     {| requests :=
          replicate 2 (V104.buildRequest (webAppUrl demoWorld) "vehicles" "GET" None);
        timers := backoff GOOGLE_CONFIG 1 1 |}).
Proof.
  apply (makeApiRequest_recovers GOOGLE_CONFIG (netFlaky [storedCar]) "vehicles" "GET" None
           demoWorld 1 200 "OK").
  - discriminate.
  - cbn. lia.
  - intros i Hi. assert (i = 0%nat) as -> by lia. cbn. eexists. reflexivity.
  - reflexivity.
  - reflexivity.
  - discriminate.
Defined.

(** X8. Retry bound and backoff of revision 1.0.0, which reads failure off
    [result.error]: when every attempt fails, the call rejects after exactly
    [retryAttempts] requests to [webAppUrl + endpoint] and
    [retryAttempts - 1] waits of [retryDelay * 1], [retryDelay * 2], ...;
    only the clock of the world has moved, by the sum of the waits. *)
Theorem makeApiRequest_100_exhausts (cfg : Config) (net : nat → Request → FetchOutcome)
    (endpoint method : string) (data : option record) (w : World) :
  webAppUrl w ≠ "" →
  (∀ n req, ∃ e, attempt100 (net n req) = Threw e) →
  ∃ e : JsError,
    exec net (V100.makeApiRequest cfg endpoint method data) w
    = (ticks (backoff cfg 1 (pred (retryAttempts cfg))) w, Threw e,
       {| requests :=
            replicate (retryAttempts cfg)
              (V100.buildRequest (webAppUrl w) endpoint method data);
          timers := backoff cfg 1 (pred (retryAttempts cfg)) |}).
Proof.
  intros Hurl Hfail.
  unfold exec, V100.makeApiRequest, bind, gets. cbn [bindTask].
  destruct (String.eqb_spec (webAppUrl w) "") as [?|_]; [done|].
  destruct (run_retryLoop_exhaust net cfg _
              (V100.buildRequest (webAppUrl w) endpoint method data) attempt100
              (attemptOf_100 net _) (retryAttempts cfg) 1 ThrownUndefined w noTrace)
    as [e He].
  - lia.
  - intros i. apply Hfail.
  - exists e. rewrite He. done.
Qed.

(** A backend that answers 200 with an application error in the body. *)
Definition netAppError : nat → Request → FetchOutcome :=
  λ _ _, FetchResponse 200 "OK"
           (JsonObject {| env_status := None; env_message := None;
                          env_error := Some "Invalid endpoint"; env_data := DataMissing |}).

Lemma makeApiRequest_100_exhausts_witness :
  ∃ e : JsError,
    exec netAppError (V100.makeApiRequest GOOGLE_CONFIG "/vehicles" "GET" None) demoWorld
    = (ticks (backoff GOOGLE_CONFIG 1 (pred (retryAttempts GOOGLE_CONFIG))) demoWorld, Threw e,
       {| requests :=
            replicate (retryAttempts GOOGLE_CONFIG)
              (V100.buildRequest (webAppUrl demoWorld) "/vehicles" "GET" None);
          timers := backoff GOOGLE_CONFIG 1 (pred (retryAttempts GOOGLE_CONFIG)) |}).
Proof.
  apply (makeApiRequest_100_exhausts GOOGLE_CONFIG netAppError "/vehicles" "GET" None demoWorld).
  - discriminate.
  - intros n req. eexists. reflexivity.
Defined.

Example makeApiRequest_100_backoff_example :
  exec netAppError (V100.makeApiRequest GOOGLE_CONFIG "/vehicles" "GET" None) demoWorld
  = (tick 3000 demoWorld, Threw (ErrApi "Invalid endpoint"),
     {| requests :=
          replicate 3 {| req_url := "https://script.example/exec/vehicles";
                         req_method := "GET"; req_json := true; req_body := None |};
        timers := [1000; 2000] |}).
Proof. vm_compute. reflexivity. Qed.

(** ** More on the sync engine *)

(** X9. [syncData] is a deliberate no-op when the client is offline or has
    no URL: it returns [false] at once, sends nothing, shows nothing and
    leaves the world as it was, in both revisions. *)
Theorem syncData_skips (cfg : Config) (net : nat → Request → FetchOutcome) (w : World) :
  isOnline w = false ∨ webAppUrl w = "" →
  exec net (V104.syncData cfg) w = (w, Returned false, noTrace)
  ∧ exec net (V100.syncData cfg) w = (w, Returned false, noTrace).
Proof.
  intros Hskip.
  assert (isOnline w && configured w = false) as Hready.
  { destruct Hskip as [->|Hurl]; [done|].
    unfold configured. rewrite Hurl. by rewrite andb_false_r. }
  unfold exec, V104.syncData, V100.syncData, bind, gets. cbn [bindTask].
  by rewrite Hready.
Qed.

Lemma syncData_skips_witness :
  exec netDown (V104.syncData GOOGLE_CONFIG) offlineWorld
    = (offlineWorld, Returned false, noTrace)
  ∧ exec netDown (V100.syncData GOOGLE_CONFIG) offlineWorld
    = (offlineWorld, Returned false, noTrace).
Proof.
  apply (syncData_skips GOOGLE_CONFIG netDown offlineWorld).
  left. reflexivity.
Defined.

(** X10. [syncData] never rejects: whatever the network does, the promise
    resolves with [true] or [false], in both revisions. *)
Theorem syncData_never_rejects (cfg : Config) (net : nat → Request → FetchOutcome)
    (w : World) :
  (∃ b : bool, (exec net (V104.syncData cfg) w).1.2 = Returned b)
  ∧ (∃ b : bool, (exec net (V100.syncData cfg) w).1.2 = Returned b).
Proof.
  unfold exec, V104.syncData, V100.syncData, bind, gets. cbn [bindTask].
  destruct (isOnline w && configured w); cbn [negb].
  - unfold tryFinally, tryCatch. rewrite !run_finallyTask, !run_catchTask. split.
    + match goal with |- context [run net ?t noTrace] =>
        destruct (run net t noTrace) as [[w1 [b|e]] tr1] end.
      * by exists b.
      * cbn. by exists false.
    + match goal with |- context [run net ?t noTrace] =>
        destruct (run net t noTrace) as [[w1 [b|e]] tr1] end.
      * by exists b.
      * cbn. by exists false.
  - split; by exists false.
Qed.

Section sync_runs.
Context (net : nat → Request → FetchOutcome) (cfg : Config).
Context (Hretry : (0 < retryAttempts cfg)%nat).

Lemma run_makeApiRequest_first_104 action method data w tr env :
  webAppUrl w ≠ "" →
  attempt104 (net (length (requests tr)) (V104.buildRequest (webAppUrl w) action method data))
    = Returned env →
  run net (V104.makeApiRequest cfg action method data w) tr
  = (w, Returned env, sendOne (V104.buildRequest (webAppUrl w) action method data) tr).
Proof.
  intros Hurl Hok. unfold V104.makeApiRequest, bind, gets. cbn [bindTask].
  destruct (String.eqb_spec (webAppUrl w) "") as [?|_]; [done|].
  rewrite (run_retryLoop_recover net cfg _ _ attempt104 (attemptOf_104 net _) 0 _ _ _ _ _ env).
  - unfold sendOne, backoff, ticks. cbn. by rewrite app_nil_r.
  - lia.
  - lia.
  - intros i Hi. lia.
  - by rewrite Nat.add_0_r.
Qed.

Lemma run_makeApiRequest_first_100 endpoint method data w tr env :
  webAppUrl w ≠ "" →
  attempt100 (net (length (requests tr)) (V100.buildRequest (webAppUrl w) endpoint method data))
    = Returned env →
  run net (V100.makeApiRequest cfg endpoint method data w) tr
  = (w, Returned env, sendOne (V100.buildRequest (webAppUrl w) endpoint method data) tr).
Proof.
  intros Hurl Hok. unfold V100.makeApiRequest, bind, gets. cbn [bindTask].
  destruct (String.eqb_spec (webAppUrl w) "") as [?|_]; [done|].
  rewrite (run_retryLoop_recover net cfg _ _ attempt100 (attemptOf_100 net _) 0 _ _ _ _ _ env).
  - unfold sendOne, backoff, ticks. cbn. by rewrite app_nil_r.
  - lia.
  - lia.
  - intros i Hi. lia.
  - by rewrite Nat.add_0_r.
Qed.

(** What a pull that is answered at the first attempt does to the world. *)
Definition pulled (key idField : string) (rows : DataField) (w : World) : World :=
  match rows with
  | DataRows rows =>
      withApp (λ a, setState key (mergeData (localRows key w) rows idField)
                      (saveToStorage key (mergeData (localRows key w) rows idField) a)) w
  | _ => w
  end.

Lemma run_syncVehicles_104 w tr env :
  webAppUrl w ≠ "" →
  attempt104 (net (length (requests tr)) (V104.buildRequest (webAppUrl w) "vehicles" "GET" None))
    = Returned env →
  run net (V104.syncVehicles cfg w) tr
  = (pulled "vehicles" "vehicle_id" (env_data env) w, Returned tt,
     sendOne (V104.buildRequest (webAppUrl w) "vehicles" "GET" None) tr).
Proof.
  intros Hurl Hok. unfold V104.syncVehicles, tryCatch, bind.
  rewrite run_catchTask, run_bindTask, (run_makeApiRequest_first_104 _ _ _ _ _ env) by done.
  unfold pulled. by destruct (env_data env).
Qed.

Lemma run_syncCollection_100 endpoint key idField lastSync w tr env :
  webAppUrl w ≠ "" →
  attempt100 (net (length (requests tr))
                (V100.buildRequest (webAppUrl w) (endpoint +:+ V100.sinceQuery lastSync)
                   "GET" None))
    = Returned env →
  run net (V100.syncCollection cfg endpoint key idField lastSync w) tr
  = (pulled key idField (env_data env) w, Returned tt,
     sendOne (V100.buildRequest (webAppUrl w) (endpoint +:+ V100.sinceQuery lastSync)
                "GET" None) tr).
Proof.
  intros Hurl Hok. unfold V100.syncCollection, tryCatch, bind.
  rewrite run_catchTask, run_bindTask, (run_makeApiRequest_first_100 _ _ _ _ _ env) by done.
  unfold pulled. by destruct (env_data env).
Qed.

End sync_runs.

(** The world after a sync pass that went through at clock [clock w]. *)
Definition synced (w : World) : World :=
  withApp (setLoading false)
    (withApp (showToast "Data synchronized successfully" "success")
       (withApp (saveLastSync (clock w)) (setLastSyncTime (clock w) w))).

Lemma localRows_pulled key idField rows w a :
  APP w = Some a →
  localRows key (pulled key idField (DataRows rows) w)
  = mergeData (localRows key w) rows idField.
Proof. intros Happ. unfold pulled. by apply (localRows_persisted _ _ _ a). Qed.

Lemma localRows_pulled_other key key' idField data w :
  key ≠ key' → localRows key' (pulled key idField data w) = localRows key' w.
Proof.
  intros Hne. destruct data as [|rows|]; [done| |done].
  unfold pulled, localRows, withApp, getFromStorage. cbn.
  destruct (APP w) as [a|]; [|done]. cbn. by rewrite lookup_insert_ne.
Qed.

Lemma localRows_synced key w : localRows key (synced w) = localRows key w.
Proof. unfold synced, localRows, withApp. cbn. by destruct (APP w). Qed.

Lemma syncData_104_run (cfg : Config) (net : nat → Request → FetchOutcome)
    (w : World) (probe answer : Envelope) :
  isOnline w = true → webAppUrl w ≠ "" → (0 < retryAttempts cfg)%nat →
  attempt104 (net 0%nat (V104.buildRequest (webAppUrl w) "" "GET" None)) = Returned probe →
  attempt104 (net 1%nat (V104.buildRequest (webAppUrl w) "vehicles" "GET" None))
    = Returned answer →
  exec net (V104.syncData cfg) w
  = (synced (pulled "vehicles" "vehicle_id" (env_data answer) (withApp (setLoading true) w)),
     Returned true,
     {| requests := [V104.buildRequest (webAppUrl w) "" "GET" None;
                     V104.buildRequest (webAppUrl w) "vehicles" "GET" None];
        timers := [] |}).
Proof.
  intros Hon Hurl Hretry Hprobe Hanswer.
  unfold exec, V104.syncData, tryFinally, tryCatch, bind, gets, modify, ret.
  cbn -[V104.makeApiRequest V104.syncVehicles].
  rewrite Hon. unfold configured.
  destruct (String.eqb_spec (webAppUrl w) "") as [?|_]; [done|].
  cbn -[V104.makeApiRequest V104.syncVehicles].
  rewrite run_finallyTask, run_catchTask, run_bindTask.
  rewrite (run_makeApiRequest_first_104 net cfg Hretry _ _ _ _ _ probe) by done.
  rewrite run_bindTask.
  rewrite (run_syncVehicles_104 net cfg Hretry _ _ answer) by done.
  cbn. unfold synced.
  by destruct (env_data answer).
Qed.

(** X11. A sync pass of revision 1.0.4 over a responsive backend sends the
    connectivity test and one pull of the vehicles and nothing else, stores
    the merge of the local and the pulled vehicles, stamps the last-sync time
    (in memory and in the Local Store) with the clock, ends with the loading
    overlay off and a success toast, and returns [true]. *)
Theorem syncData_104_succeeds (cfg : Config) (net : nat → Request → FetchOutcome)
    (w : World) (a : App) (probe answer : Envelope) (rows : list record) :
  isOnline w = true → webAppUrl w ≠ "" → (0 < retryAttempts cfg)%nat → APP w = Some a →
  attempt104 (net 0%nat (V104.buildRequest (webAppUrl w) "" "GET" None)) = Returned probe →
  attempt104 (net 1%nat (V104.buildRequest (webAppUrl w) "vehicles" "GET" None))
    = Returned answer →
  env_data answer = DataRows rows →
  ∃ (w' : World) (a' : App),
    exec net (V104.syncData cfg) w
    = (w', Returned true,
       {| requests := [V104.buildRequest (webAppUrl w) "" "GET" None;
                       V104.buildRequest (webAppUrl w) "vehicles" "GET" None];
          timers := [] |})
    ∧ APP w' = Some a'
    ∧ localRows "vehicles" w' = mergeData (localRows "vehicles" w) rows "vehicle_id"
    ∧ state a' !! "vehicles" = Some (mergeData (localRows "vehicles" w) rows "vehicle_id")
    ∧ storedLastSync a' = Some (clock w)
    ∧ lastSyncTime w' = Some (clock w)
    ∧ loading a' = false
    ∧ toasts a' = toasts a ++ [("Data synchronized successfully", "success")].
Proof.
  intros Hon Hurl Hretry Happ Hprobe Hanswer Hrows.
  rewrite (syncData_104_run cfg net w probe answer) by done. rewrite Hrows.
  eexists _, _. split; [reflexivity|].
  unfold synced, pulled, withApp, localRows, getFromStorage. cbn. rewrite Happ. cbn.
  split; [reflexivity|]. cbn. rewrite !lookup_insert_eq. by repeat split.
Qed.

Lemma syncData_104_succeeds_witness :
  ∃ (w' : World) (a' : App),
    exec (netServing [dup_first]) (V104.syncData GOOGLE_CONFIG) demoWorld
    = (w', Returned true,
       {| requests := [V104.buildRequest (webAppUrl demoWorld) "" "GET" None;
                       V104.buildRequest (webAppUrl demoWorld) "vehicles" "GET" None];
          timers := [] |})
    ∧ APP w' = Some a'
    ∧ localRows "vehicles" w'
      = mergeData (localRows "vehicles" demoWorld) [dup_first] "vehicle_id"
    ∧ state a' !! "vehicles"
      = Some (mergeData (localRows "vehicles" demoWorld) [dup_first] "vehicle_id")
    ∧ storedLastSync a' = Some (clock demoWorld)
    ∧ lastSyncTime w' = Some (clock demoWorld)
    ∧ loading a' = false
    ∧ toasts a' = toasts demoApp ++ [("Data synchronized successfully", "success")].
Proof.
  apply (syncData_104_succeeds GOOGLE_CONFIG (netServing [dup_first]) demoWorld demoApp
           {| env_status := Some "ok"; env_message := None;
              env_error := None; env_data := DataRows [dup_first] |}
           {| env_status := Some "ok"; env_message := None;
              env_error := None; env_data := DataRows [dup_first] |} [dup_first]).
  - reflexivity.
  - discriminate.
  - cbn. lia.
  - reflexivity.
  - reflexivity.
  - reflexivity.
  - reflexivity.
Defined.

Example syncData_104_example :
  localRows "vehicles" (exec (netServing [dup_first]) (V104.syncData GOOGLE_CONFIG) demoWorld).1.1
    = [storedCar; dup_first]
  ∧ (storedLastSync <$> APP (exec (netServing [dup_first]) (V104.syncData GOOGLE_CONFIG) demoWorld).1.1)
    = Some (Some 1755561600000).
Proof. vm_compute. split; reflexivity. Qed.

(** The four pulls of a pass of revision 1.0.0, for a given last-sync time. *)
Definition pulls100 (url : string) (lastSync : option Z) : list Request :=
  (λ endpoint, V100.buildRequest url (endpoint +:+ V100.sinceQuery lastSync) "GET" None)
    <$> ["/vehicles"; "/maintenance"; "/receipts"; "/reminders"].

Lemma webAppUrl_pulled key idField data w :
  webAppUrl (pulled key idField data w) = webAppUrl w.
Proof. by destruct data. Qed.

Lemma APP_pulled key idField data w a :
  APP w = Some a → ∃ a', APP (pulled key idField data w) = Some a'
                         ∧ storedLastSync a' = storedLastSync a
                         ∧ toasts a' = toasts a ∧ loading a' = loading a.
Proof.
  intros Happ. destruct data as [|rows|]; cbn; eauto.
  unfold withApp. cbn. rewrite Happ. cbn. eauto.
Qed.

Lemma clock_pulled key idField data w : clock (pulled key idField data w) = clock w.
Proof. by destruct data. Qed.

Lemma APP_synced w a :
  APP w = Some a →
  ∃ a', APP (synced w) = Some a' ∧ storedLastSync a' = Some (clock w).
Proof. intros Happ. unfold synced, withApp. cbn. rewrite Happ. cbn. eauto. Qed.

Lemma lastSyncTime_synced w : lastSyncTime (synced w) = Some (clock w).
Proof. done. Qed.

(** X12. A sync pass of revision 1.0.0 over a responsive backend pulls the
    four collections in the order vehicles, maintenance, receipts,
    reminders, each once and each narrowed by the stored last-sync time,
    stores for each the merge of its local and pulled records under its own
    id field, stamps the last-sync time with the clock and returns [true]. *)
Theorem syncData_100_succeeds (cfg : Config) (net : nat → Request → FetchOutcome)
    (w : World) (a : App) (e0 e1 e2 e3 : Envelope) (r0 r1 r2 r3 : list record) :
  isOnline w = true → webAppUrl w ≠ "" → (0 < retryAttempts cfg)%nat → APP w = Some a →
  (∀ (i : nat) (req : Request) (env : Envelope),
     pulls100 (webAppUrl w) (storedLastSync a) !! i = Some req →
     [e0; e1; e2; e3] !! i = Some env →
     attempt100 (net i req) = Returned env) →
  env_data <$> [e0; e1; e2; e3] = DataRows <$> [r0; r1; r2; r3] →
  ∃ (w' : World) (a' : App),
    exec net (V100.syncData cfg) w
    = (w', Returned true,
       {| requests := pulls100 (webAppUrl w) (storedLastSync a); timers := [] |})
    ∧ APP w' = Some a'
    ∧ localRows "vehicles" w' = mergeData (localRows "vehicles" w) r0 "vehicle_id"
    ∧ localRows "maintenanceRecords" w'
      = mergeData (localRows "maintenanceRecords" w) r1 "log_id"
    ∧ localRows "receipts" w' = mergeData (localRows "receipts" w) r2 "receipt_id"
    ∧ localRows "reminders" w' = mergeData (localRows "reminders" w) r3 "reminder_id"
    ∧ storedLastSync a' = Some (clock w)
    ∧ lastSyncTime w' = Some (clock w).
Proof.
  intros Hon Hurl Hretry Happ Hnet Hdata.
  injection Hdata as H0 H1 H2 H3.
  pose proof (Hnet 0%nat _ e0 eq_refl eq_refl) as A0.
  pose proof (Hnet 1%nat _ e1 eq_refl eq_refl) as A1.
  pose proof (Hnet 2%nat _ e2 eq_refl eq_refl) as A2.
  pose proof (Hnet 3%nat _ e3 eq_refl eq_refl) as A3.
  unfold exec, V100.syncData, V100.syncVehicles, V100.syncMaintenanceRecords,
    V100.syncReceipts, V100.syncReminders, tryFinally, tryCatch, bind, gets, modify, ret.
  cbn -[V100.syncCollection].
  rewrite Hon. unfold configured.
  destruct (String.eqb_spec (webAppUrl w) "") as [?|_]; [done|].
  cbn -[V100.syncCollection]. rewrite Happ. cbn -[V100.syncCollection].
  set (w1 := withApp (setLoading true) w).
  assert (localRows "vehicles" w1 = localRows "vehicles" w
          ∧ localRows "maintenanceRecords" w1 = localRows "maintenanceRecords" w
          ∧ localRows "receipts" w1 = localRows "receipts" w
          ∧ localRows "reminders" w1 = localRows "reminders" w) as (L0 & L1 & L2 & L3).
  { unfold w1, localRows, withApp. cbn. rewrite Happ. done. }
  assert (∃ a1, APP w1 = Some a1) as [a1 Happ1]
    by (unfold w1, withApp; cbn; rewrite Happ; eauto).
  rewrite run_finallyTask, run_catchTask, run_bindTask.
  rewrite (run_syncCollection_100 net cfg Hretry _ _ _ _ w1 _ e0) by done.
  rewrite run_bindTask.
  rewrite (run_syncCollection_100 net cfg Hretry _ _ _ _ _ _ e1)
    by (rewrite ?webAppUrl_pulled; done).
  rewrite run_bindTask.
  rewrite (run_syncCollection_100 net cfg Hretry _ _ _ _ _ _ e2)
    by (rewrite ?webAppUrl_pulled; done).
  rewrite run_bindTask.
  rewrite (run_syncCollection_100 net cfg Hretry _ _ _ _ _ _ e3)
    by (rewrite ?webAppUrl_pulled; done).
  rewrite H0, H1, H2, H3. rewrite !webAppUrl_pulled.
  set (w2 := pulled "vehicles" "vehicle_id" (DataRows r0) w1).
  set (w3 := pulled "maintenanceRecords" "log_id" (DataRows r1) w2).
  set (w4 := pulled "receipts" "receipt_id" (DataRows r2) w3).
  set (w5 := pulled "reminders" "reminder_id" (DataRows r3) w4).
  destruct (APP_pulled "vehicles" "vehicle_id" (DataRows r0) w1 a1 Happ1) as (a2 & Happ2 & _).
  destruct (APP_pulled "maintenanceRecords" "log_id" (DataRows r1) w2 a2 Happ2)
    as (a3 & Happ3 & _).
  destruct (APP_pulled "receipts" "receipt_id" (DataRows r2) w3 a3 Happ3) as (a4 & Happ4 & _).
  destruct (APP_pulled "reminders" "reminder_id" (DataRows r3) w4 a4 Happ4)
    as (a5 & Happ5 & _).
  cbn [run bindTask catchTask finallyTask].
  fold (synced w5). unfold sendOne. cbn [requests timers app noTrace].
  assert (clock w5 = clock w) as Hclock by (unfold w5, w4, w3, w2; by rewrite !clock_pulled).
  destruct (APP_synced w5 a5 Happ5) as (a' & Ha' & Hls). rewrite Hclock in Hls.
  exists (synced w5), a'. split; [reflexivity|]. split; [done|].
  rewrite !localRows_synced.
  split.
  { unfold w5, w4, w3. rewrite !localRows_pulled_other by done.
    unfold w2. by rewrite (localRows_pulled _ _ _ _ a1), L0. }
  split.
  { unfold w5, w4. rewrite !localRows_pulled_other by done.
    unfold w3. rewrite (localRows_pulled _ _ _ _ a2) by done.
    unfold w2. by rewrite localRows_pulled_other, L1. }
  split.
  { unfold w5. rewrite !localRows_pulled_other by done.
    unfold w4. rewrite (localRows_pulled _ _ _ _ a3) by done.
    unfold w3, w2. by rewrite !localRows_pulled_other, L2. }
  split.
  { unfold w5. rewrite (localRows_pulled _ _ _ _ a4) by done.
    unfold w4, w3, w2. by rewrite !localRows_pulled_other, L3. }
  split; [done|]. by rewrite lastSyncTime_synced, Hclock.
Qed.

(** A backend that answers the [n]-th request with the [n]-th list of rows. *)
Definition envelopeOf (rows : list record) : Envelope :=
  {| env_status := Some "ok"; env_message := None; env_error := None;
     env_data := DataRows rows |}.

Definition netInTurn (answers : list (list record)) : nat → Request → FetchOutcome :=
  λ n _, FetchResponse 200 "OK" (JsonObject (envelopeOf (default [] (answers !! n)))).

Definition oilChange : record :=
  <["log_id" := VStr "m-1"]> (<["vehicle_id" := VStr "v-1"]> ∅).

Lemma syncData_100_succeeds_witness :
  ∃ (w' : World) (a' : App),
    exec (netInTurn [[dup_first]; [oilChange]; []; []]) (V100.syncData GOOGLE_CONFIG) demoWorld
    = (w', Returned true,
       {| requests := pulls100 (webAppUrl demoWorld) (storedLastSync demoApp);
          timers := [] |})
    ∧ APP w' = Some a'
    ∧ localRows "vehicles" w'
      = mergeData (localRows "vehicles" demoWorld) [dup_first] "vehicle_id"
    ∧ localRows "maintenanceRecords" w'
      = mergeData (localRows "maintenanceRecords" demoWorld) [oilChange] "log_id"
    ∧ localRows "receipts" w' = mergeData (localRows "receipts" demoWorld) [] "receipt_id"
    ∧ localRows "reminders" w' = mergeData (localRows "reminders" demoWorld) [] "reminder_id"
    ∧ storedLastSync a' = Some (clock demoWorld)
    ∧ lastSyncTime w' = Some (clock demoWorld).
Proof.
  apply (syncData_100_succeeds GOOGLE_CONFIG (netInTurn [[dup_first]; [oilChange]; []; []])
           demoWorld demoApp
           (envelopeOf [dup_first]) (envelopeOf [oilChange]) (envelopeOf []) (envelopeOf [])).
  - reflexivity.
  - discriminate.
  - cbn. lia.
  - reflexivity.
  - intros i req env Hreq Henv.
    destruct i as [|[|[|[|i]]]]; cbn in Henv; [| | | |discriminate];
      injection Henv as <-; reflexivity.
  - reflexivity.
Defined.

(** X13. A pass of revision 1.0.0 stops at the first collection whose pull
    is rejected: when the pull of the vehicles fails, no request for the
    maintenance records, receipts or reminders is sent, the Local Store and
    the last-sync time stay as they were, a warning is shown and the pass
    returns [false]. *)
Theorem syncData_100_stops_at_failure (cfg : Config) (net : nat → Request → FetchOutcome)
    (w : World) (a : App) (w1 : World) (e : JsError) (tr1 : Trace) :
  isOnline w = true → webAppUrl w ≠ "" → APP w = Some a →
  exec net (V100.makeApiRequest cfg ("/vehicles" +:+ V100.sinceQuery (storedLastSync a))
              "GET" None) (withApp (setLoading true) w)
    = (w1, Threw e, tr1) →
  ∃ (w' : World) (a' : App),
    exec net (V100.syncData cfg) w = (w', Returned false, tr1)
    ∧ APP w' = Some a'
    ∧ storage a' = storage a
    ∧ storedLastSync a' = storedLastSync a
    ∧ lastSyncTime w' = lastSyncTime w
    ∧ loading a' = false
    ∧ toasts a' = toasts a ++ [("Sync failed - working offline", "warning")].
Proof.
  intros Hon Hurl Happ Hpull.
  pose proof (makeApiRequest_world_100 net cfg
                ("/vehicles" +:+ V100.sinceQuery (storedLastSync a)) "GET" None
                (withApp (setLoading true) w) noTrace) as Hw.
  unfold exec in Hpull. rewrite Hpull in Hw. destruct Hw as (Hw1 & _ & _ & Hls & _).
  cbn in Hw1, Hls. rewrite Happ in Hw1. cbn in Hw1.
  unfold exec, V100.syncData, V100.syncVehicles, tryFinally, tryCatch, bind, gets, modify, ret.
  cbn -[V100.syncCollection V100.syncMaintenanceRecords V100.syncReceipts V100.syncReminders].
  rewrite Hon. unfold configured.
  destruct (String.eqb_spec (webAppUrl w) "") as [?|_]; [done|].
  cbn -[V100.syncCollection V100.syncMaintenanceRecords V100.syncReceipts V100.syncReminders].
  rewrite Happ.
  cbn -[V100.syncCollection V100.syncMaintenanceRecords V100.syncReceipts V100.syncReminders].
  rewrite run_finallyTask, run_catchTask, run_bindTask.
  unfold V100.syncCollection at 1. unfold tryCatch, bind.
  rewrite run_catchTask, run_bindTask, Hpull.
  cbn. unfold withApp. cbn. rewrite Hw1. cbn.
  eexists _, _. split; [reflexivity|]. split; [reflexivity|]. cbn. by repeat split.
Qed.

Lemma syncData_100_stops_at_failure_witness :
  ∃ (w' : World) (a' : App),
    exec netDown (V100.syncData GOOGLE_CONFIG) demoWorld
    = (w', Returned false,
       {| requests :=
            replicate 3 {| req_url := "https://script.example/exec/vehicles";
                           req_method := "GET"; req_json := true; req_body := None |};
          timers := [1000; 2000] |})
    ∧ APP w' = Some a'
    ∧ storage a' = storage demoApp
    ∧ storedLastSync a' = storedLastSync demoApp
    ∧ lastSyncTime w' = lastSyncTime demoWorld
    ∧ loading a' = false
    ∧ toasts a' = toasts demoApp ++ [("Sync failed - working offline", "warning")].
Proof.
  eapply (syncData_100_stops_at_failure GOOGLE_CONFIG netDown demoWorld demoApp).
  - reflexivity.
  - discriminate.
  - reflexivity.
  - vm_compute. reflexivity.
Defined.

(** ** The other mutations of revision 1.0.0 *)

Module V100Mutations.

(** [{ ...vehicleData, vehicle_id: vehicleId, last_updated: now }] is laid
    over the first local vehicle under the id, if there is one; the PUT is
    sent whenever the client is online. *)
Definition updateVehicle (cfg : Config) (vehicleId : string) (vehicleData : record)
  : Async record :=
  tryCatch
    (let* now := gets clock in
     let updatedVehicle :=
       stamp [("vehicle_id", VStr vehicleId);
              ("last_updated", VStr (toISOString now))] vehicleData in
     let* vehicles := gets (localRows "vehicles") in
     (match findIndex (λ v : record, bool_decide (v !! "vehicle_id" = Some (VStr vehicleId)))
              vehicles with
      | Some index =>
          persist "vehicles" (alter (λ v, spread v updatedVehicle) index vehicles)
      | None => ret tt
      end) ;;
     let* online := gets (λ w, isOnline w && configured w) in
     (if online then
        V100.makeApiRequest cfg ("/vehicles/" +:+ vehicleId) "PUT" (Some updatedVehicle) ;;
        ret tt
      else ret tt) ;;
     ret updatedVehicle)
    (λ error, throw error).

(** [addMaintenanceRecord] and [addReceipt] differ from [addVehicle] in the
    id field, the storage key and the endpoint, and stamp no
    [last_updated]. *)
Definition addStamped (cfg : Config) (idField key endpoint : string) (data : record)
  : Async record :=
  tryCatch
    (let* newId := takeId in
     let* now := gets clock in
     let item :=
       stamp [("created_date", VStr (toISOString now))]
         (spread {[idField := VStr newId]} data) in
     let* items := gets (localRows key) in
     persist key (items ++ [item]) ;;
     let* online := gets (λ w, isOnline w && configured w) in
     (if online then V100.makeApiRequest cfg endpoint "POST" (Some item) ;; ret tt
      else ret tt) ;;
     ret item)
    (λ error, throw error).

Definition addMaintenanceRecord (cfg : Config) (maintenanceData : record) : Async record :=
  addStamped cfg "log_id" "maintenanceRecords" "/maintenance" maintenanceData.

Definition addReceipt (cfg : Config) (receiptData : record) : Async record :=
  addStamped cfg "receipt_id" "receipts" "/receipts" receiptData.

End V100Mutations.

(** The local vehicles after an update under [vehicleId]. *)
Fixpoint updatedRows (vehicleId : string) (patch : record) (vehicles : list record)
  : list record :=
  match vehicles with
  | [] => []
  | v :: rest =>
      if bool_decide (v !! "vehicle_id" = Some (VStr vehicleId))
      then spread v patch :: rest
      else v :: updatedRows vehicleId patch rest
  end.

Lemma findIndex_alter_updatedRows (vehicleId : string) (patch : record) vehicles :
  match findIndex (λ v : record, bool_decide (v !! "vehicle_id" = Some (VStr vehicleId)))
          vehicles with
  | Some index => alter (λ v, spread v patch) index vehicles
  | None => vehicles
  end = updatedRows vehicleId patch vehicles.
Proof.
  induction vehicles as [|v rest IH]; [done|]. cbn [findIndex updatedRows].
  case_bool_decide; [done|].
  destruct (findIndex _ rest); cbn in *; by rewrite <- IH.
Qed.

Lemma updatedRows_absent (vehicleId : string) (patch : record) vehicles :
  Forall (λ v : record, v !! "vehicle_id" ≠ Some (VStr vehicleId)) vehicles →
  updatedRows vehicleId patch vehicles = vehicles.
Proof.
  induction 1 as [|v rest Hv _ IH]; [done|]. cbn [updatedRows].
  rewrite bool_decide_eq_false_2 by done. by rewrite IH.
Qed.

Lemma updatedRows_ids (vehicleId : string) (patch : record) vehicles :
  patch !! "vehicle_id" = Some (VStr vehicleId) →
  idOf "vehicle_id" <$> updatedRows vehicleId patch vehicles = idOf "vehicle_id" <$> vehicles.
Proof.
  intros Hp. induction vehicles as [|v rest IH]; [done|]. cbn [updatedRows].
  case_bool_decide as E; rewrite !fmap_cons.
  - f_equal. unfold idOf, spread. rewrite E. by apply lookup_union_Some_l.
  - by rewrite IH.
Qed.

(** The patch [updateVehicle] builds on the world it runs in. *)
Definition updatePatch (w : World) (vehicleId : string) (vehicleData : record) : record :=
  stamp [("vehicle_id", VStr vehicleId);
         ("last_updated", VStr (toISOString (clock w)))] vehicleData.

Lemma updatePatch_id w vehicleId (vehicleData : record) :
  updatePatch w vehicleId vehicleData !! "vehicle_id" = Some (VStr vehicleId).
Proof.
  unfold updatePatch, stamp. cbn [foldl fst snd].
  rewrite lookup_insert_ne by done. by rewrite lookup_insert_eq.
Qed.

Lemma updateVehicle_store cfg net (vehicleId : string) (vehicleData : record) w a :
  APP w = Some a →
  localRows "vehicles" (exec net (V100Mutations.updateVehicle cfg vehicleId vehicleData) w).1.1
  = updatedRows vehicleId (updatePatch w vehicleId vehicleData) (localRows "vehicles" w).
Proof.
  intros Happ.
  rewrite <- findIndex_alter_updatedRows.
  unfold exec, V100Mutations.updateVehicle, tryCatch, bind, gets, modify, persist, ret.
  cbn -[V100.makeApiRequest].
  change (<["last_updated":=_]> _) with (updatePatch w vehicleId vehicleData).
  destruct (findIndex _ (localRows "vehicles" w)) as [index|].
  - cbn -[V100.makeApiRequest].
    set (rows := alter _ index (localRows "vehicles" w)).
    set (w1 := withApp _ w).
    assert (localRows "vehicles" w1 = rows) as Hrows
      by (apply (localRows_persisted _ _ _ a); done).
    destruct (isOnline w && configured w1).
    + rewrite run_catchTask, !run_bindTask.
      pose proof (makeApiRequest_world_100 net cfg ("/vehicles/" +:+ vehicleId) "PUT"
                    (Some (updatePatch w vehicleId vehicleData)) w1 noTrace) as (Hw & _).
      destruct (run net (V100.makeApiRequest _ _ _ _ w1) noTrace) as [[w2 [env|e]] tr2];
        cbn in *; by rewrite (localRows_APP "vehicles" w1 w2).
    + cbn. done.
  - cbn -[V100.makeApiRequest].
    destruct (isOnline w && configured w).
    + rewrite run_catchTask, !run_bindTask.
      pose proof (makeApiRequest_world_100 net cfg ("/vehicles/" +:+ vehicleId) "PUT"
                    (Some (updatePatch w vehicleId vehicleData)) w noTrace) as (Hw & _).
      destruct (run net (V100.makeApiRequest _ _ _ _ w) noTrace) as [[w2 [env|e]] tr2];
        cbn in *; by rewrite (localRows_APP "vehicles" w w2).
    + cbn. done.
Qed.

(** X14. [updateVehicle] (revision 1.0.0), whatever the network answers:
    the local vehicles keep their number, order and ids; the first vehicle
    under the id becomes [{...old, ...data, vehicle_id, last_updated}] — the
    id given to the call wins over any id in the data — and when no local
    vehicle has the id the Local Store is left as it was. *)
Theorem updateVehicle_local (cfg : Config) (net : nat → Request → FetchOutcome)
    (vehicleId : string) (vehicleData : record) (w : World) (a : App) :
  APP w = Some a →
  localRows "vehicles" (exec net (V100Mutations.updateVehicle cfg vehicleId vehicleData) w).1.1
    = updatedRows vehicleId (updatePatch w vehicleId vehicleData) (localRows "vehicles" w)
  ∧ idOf "vehicle_id"
      <$> localRows "vehicles"
            (exec net (V100Mutations.updateVehicle cfg vehicleId vehicleData) w).1.1
    = idOf "vehicle_id" <$> localRows "vehicles" w
  ∧ updatePatch w vehicleId vehicleData !! "vehicle_id" = Some (VStr vehicleId)
  ∧ updatePatch w vehicleId vehicleData !! "last_updated"
    = Some (VStr (toISOString (clock w)))
  ∧ (Forall (λ v : record, v !! "vehicle_id" ≠ Some (VStr vehicleId))
       (localRows "vehicles" w) →
     localRows "vehicles"
       (exec net (V100Mutations.updateVehicle cfg vehicleId vehicleData) w).1.1
     = localRows "vehicles" w).
Proof.
  intros Happ. rewrite (updateVehicle_store cfg net vehicleId vehicleData w a Happ).
  split; [done|]. split; [apply updatedRows_ids, updatePatch_id|].
  split; [apply updatePatch_id|]. split.
  - unfold updatePatch, stamp. cbn [foldl fst snd]. by rewrite lookup_insert_eq.
  - apply updatedRows_absent.
Qed.

Definition renamedCar : record :=
  <["vehicle_id" := VStr "other"]> (<["make" := VStr "Acura"]> ∅).

Lemma updateVehicle_local_witness :
  localRows "vehicles"
    (exec netDown (V100Mutations.updateVehicle GOOGLE_CONFIG "v-1" renamedCar) demoWorld).1.1
    = updatedRows "v-1" (updatePatch demoWorld "v-1" renamedCar) (localRows "vehicles" demoWorld)
  ∧ idOf "vehicle_id"
      <$> localRows "vehicles"
            (exec netDown (V100Mutations.updateVehicle GOOGLE_CONFIG "v-1" renamedCar) demoWorld).1.1
    = idOf "vehicle_id" <$> localRows "vehicles" demoWorld
  ∧ updatePatch demoWorld "v-1" renamedCar !! "vehicle_id" = Some (VStr "v-1")
  ∧ updatePatch demoWorld "v-1" renamedCar !! "last_updated"
    = Some (VStr (toISOString (clock demoWorld)))
  ∧ (Forall (λ v : record, v !! "vehicle_id" ≠ Some (VStr "v-1"))
       (localRows "vehicles" demoWorld) →
     localRows "vehicles"
       (exec netDown (V100Mutations.updateVehicle GOOGLE_CONFIG "v-1" renamedCar) demoWorld).1.1
     = localRows "vehicles" demoWorld).
Proof.
  apply (updateVehicle_local GOOGLE_CONFIG netDown "v-1" renamedCar demoWorld demoApp).
  reflexivity.
Defined.

Example updateVehicle_example :
  localRows "vehicles"
    (exec netDown (V100Mutations.updateVehicle GOOGLE_CONFIG "v-1" renamedCar) demoWorld).1.1
  = [<["vehicle_id" := VStr "v-1"]>
       (<["make" := VStr "Acura"]>
          (<["last_updated" := VStr "2025-08-19T00:00:00.000Z"]> ∅))].
Proof. vm_compute. reflexivity. Qed.

(** X15. [deleteVehicle] (revision 1.0.0): whatever the network answers,
    the local vehicles afterwards are the former ones without those under
    the id, in their order; offline the call sends nothing and resolves with
    [true]. *)
Theorem deleteVehicle_local (cfg : Config) (net : nat → Request → FetchOutcome)
    (vehicleId : string) (w : World) (a : App) :
  APP w = Some a →
  localRows "vehicles" (exec net (V100.deleteVehicle cfg vehicleId) w).1.1
    = filter (λ v : record, v !! "vehicle_id" ≠ Some (VStr vehicleId)) (localRows "vehicles" w)
  ∧ (∀ v : record, v ∈ localRows "vehicles" (exec net (V100.deleteVehicle cfg vehicleId) w).1.1
       ↔ v ∈ localRows "vehicles" w ∧ v !! "vehicle_id" ≠ Some (VStr vehicleId))
  ∧ (isOnline w = false →
     (exec net (V100.deleteVehicle cfg vehicleId) w).1.2 = Returned true
     ∧ (exec net (V100.deleteVehicle cfg vehicleId) w).2 = noTrace).
Proof.
  intros Happ. rewrite (deleteVehicle_store cfg net vehicleId w a Happ).
  split; [done|]. split.
  - intros v. rewrite list_elem_of_filter. tauto.
  - intros Hoff.
    unfold exec, V100.deleteVehicle, tryCatch, bind, gets, modify, persist, ret.
    cbn. rewrite Hoff. cbn. done.
Qed.

Lemma deleteVehicle_local_witness :
  localRows "vehicles" (exec netDown (V100.deleteVehicle GOOGLE_CONFIG "v-1") offlineWorld).1.1
    = filter (λ v : record, v !! "vehicle_id" ≠ Some (VStr "v-1"))
        (localRows "vehicles" offlineWorld)
  ∧ (∀ v : record,
       v ∈ localRows "vehicles"
             (exec netDown (V100.deleteVehicle GOOGLE_CONFIG "v-1") offlineWorld).1.1
       ↔ v ∈ localRows "vehicles" offlineWorld ∧ v !! "vehicle_id" ≠ Some (VStr "v-1"))
  ∧ (isOnline offlineWorld = false →
     (exec netDown (V100.deleteVehicle GOOGLE_CONFIG "v-1") offlineWorld).1.2 = Returned true
     ∧ (exec netDown (V100.deleteVehicle GOOGLE_CONFIG "v-1") offlineWorld).2 = noTrace).
Proof.
  apply (deleteVehicle_local GOOGLE_CONFIG netDown "v-1" offlineWorld demoApp).
  reflexivity.
Defined.

(** The object literal of [addMaintenanceRecord] and [addReceipt]. *)
Definition newItem (w : World) (idField : string) (data : record) : record :=
  stamp [("created_date", VStr (toISOString (clock w)))]
    (spread {[idField := VStr (freshId w)]} data).

Lemma addStamped_offline cfg net (idField key endpoint : string) (data : record) w a :
  isOnline w = false → APP w = Some a →
  exec net (V100Mutations.addStamped cfg idField key endpoint data) w
  = (withApp (λ a, setState key (localRows key w ++ [newItem w idField data])
                     (saveToStorage key (localRows key w ++ [newItem w idField data]) a))
       (dropEntropy w),
     Returned (newItem w idField data), noTrace).
Proof.
  intros Hoff Happ.
  unfold exec, V100Mutations.addStamped, tryCatch, bind, takeId, gets, modify, persist, ret.
  cbn. rewrite Happ. cbn. rewrite Hoff. cbn.
  unfold newItem, freshId, localRows. rewrite Happ. cbn. rewrite Happ. done.
Qed.

(** X16. Offline, with [window.APP] loaded, [addMaintenanceRecord] and
    [addReceipt] send nothing and return a record that is now the last of
    its collection in the Local Store: the data under a generated [log_id]
    (resp. [receipt_id]) unless the data names one, stamped with
    [created_date] and, unlike a vehicle, with no [last_updated]. *)
Theorem addRecord_offline (cfg : Config) (net : nat → Request → FetchOutcome)
    (data : record) (w : World) (a : App) :
  isOnline w = false → APP w = Some a →
  data !! "log_id" = None → data !! "receipt_id" = None →
  ∃ (entry receipt : record) (w1 w2 : World),
    exec net (V100Mutations.addMaintenanceRecord cfg data) w = (w1, Returned entry, noTrace)
    ∧ localRows "maintenanceRecords" w1 = localRows "maintenanceRecords" w ++ [entry]
    ∧ entry !! "log_id" = Some (VStr (generateId w))
    ∧ entry !! "created_date" = Some (VStr (toISOString (clock w)))
    ∧ entry !! "last_updated" = data !! "last_updated"
    ∧ exec net (V100Mutations.addReceipt cfg data) w = (w2, Returned receipt, noTrace)
    ∧ localRows "receipts" w2 = localRows "receipts" w ++ [receipt]
    ∧ receipt !! "receipt_id" = Some (VStr (generateId w))
    ∧ receipt !! "created_date" = Some (VStr (toISOString (clock w)))
    ∧ receipt !! "last_updated" = data !! "last_updated".
Proof.
  intros Hoff Happ Hlog Hrec.
  assert (freshId w = generateId w) as Hid by (unfold freshId; by rewrite Happ).
  assert (∀ idField : string, idField ≠ "created_date" → idField ≠ "last_updated" →
          data !! idField = None →
          newItem w idField data !! idField = Some (VStr (generateId w))
          ∧ newItem w idField data !! "created_date" = Some (VStr (toISOString (clock w)))
          ∧ newItem w idField data !! "last_updated" = data !! "last_updated") as Hitem.
  { intros idField H1 H2 Hnone. unfold newItem, stamp, spread. cbn [foldl fst snd].
    rewrite lookup_insert_eq, !lookup_insert_ne by done. rewrite Hid.
    split; [|split; [done|]].
    - rewrite lookup_union_r by done. by rewrite lookup_singleton_eq.
    - destruct (data !! "last_updated") as [v|] eqn:E.
      + by apply lookup_union_Some_l.
      + rewrite lookup_union_r by done. by rewrite lookup_singleton_ne. }
  destruct (Hitem "log_id") as (A1 & A2 & A3); [done..|].
  destruct (Hitem "receipt_id") as (B1 & B2 & B3); [done..|].
  eexists _, _, _, _.
  split; [by apply (addStamped_offline _ _ _ _ _ _ _ a)|].
  split; [by apply (localRows_persisted _ _ _ a)|].
  split; [done|]. split; [done|]. split; [done|].
  split; [by apply (addStamped_offline _ _ _ _ _ _ _ a)|].
  split; [by apply (localRows_persisted _ _ _ a)|].
  by repeat split.
Qed.

Lemma addRecord_offline_witness :
  ∃ (entry receipt : record) (w1 w2 : World),
    exec netDown (V100Mutations.addMaintenanceRecord GOOGLE_CONFIG fordF150) offlineWorld
      = (w1, Returned entry, noTrace)
    ∧ localRows "maintenanceRecords" w1 = localRows "maintenanceRecords" offlineWorld ++ [entry]
    ∧ entry !! "log_id" = Some (VStr (generateId offlineWorld))
    ∧ entry !! "created_date" = Some (VStr (toISOString (clock offlineWorld)))
    ∧ entry !! "last_updated" = fordF150 !! "last_updated"
    ∧ exec netDown (V100Mutations.addReceipt GOOGLE_CONFIG fordF150) offlineWorld
      = (w2, Returned receipt, noTrace)
    ∧ localRows "receipts" w2 = localRows "receipts" offlineWorld ++ [receipt]
    ∧ receipt !! "receipt_id" = Some (VStr (generateId offlineWorld))
    ∧ receipt !! "created_date" = Some (VStr (toISOString (clock offlineWorld)))
    ∧ receipt !! "last_updated" = fordF150 !! "last_updated".
Proof.
  apply (addRecord_offline GOOGLE_CONFIG netDown fordF150 offlineWorld demoApp).
  - reflexivity.
  - reflexivity.
  - vm_compute. reflexivity.
  - vm_compute. reflexivity.
Defined.

(** X17. [addVehicle] of revision 1.0.4 never rejects: the POST is tried
    first, its failure is swallowed, and the call resolves with the new
    vehicle whatever the network does. *)
Theorem addVehicle_104_never_rejects (cfg : Config) (net : nat → Request → FetchOutcome)
    (vehicleData : record) (w : World) :
  (exec net (V104.addVehicle cfg vehicleData) w).1.2 = Returned (newVehicle w vehicleData).
Proof.
  unfold exec, V104.addVehicle, tryCatch, bind, takeId, gets, modify, persist, ret.
  cbn -[V104.makeApiRequest].
  destruct (APP w) as [a|] eqn:Happ; cbn -[V104.makeApiRequest].
  all: change (<["last_updated":=_]> _) with (newVehicle w vehicleData).
  all: destruct (isOnline w && configured _); [|done].
  all: rewrite run_catchTask, run_bindTask, run_catchTask, run_bindTask.
  all: destruct (run net (V104.makeApiRequest _ _ _ _ _) noTrace) as [[w2 [env|e]] tr2]; done.
Qed.

(** X18. [addVehicle] of revision 1.0.0 writes first and pushes second:
    when the POST is rejected the call is rejected with the same error, and
    the new vehicle is nevertheless the last entry of the Local Store (no
    rollback). *)
Theorem addVehicle_100_rejects_keeps (cfg : Config) (net : nat → Request → FetchOutcome)
    (vehicleData : record) (w : World) (a : App) (w1 : World) (e : JsError) (tr1 : Trace) :
  isOnline w = true → webAppUrl w ≠ "" → APP w = Some a →
  exec net (V100.makeApiRequest cfg "/vehicles" "POST" (Some (newVehicle w vehicleData)))
    (withApp (λ a, setState "vehicles" (localRows "vehicles" w ++ [newVehicle w vehicleData])
                     (saveToStorage "vehicles"
                        (localRows "vehicles" w ++ [newVehicle w vehicleData]) a))
       (dropEntropy w))
    = (w1, Threw e, tr1) →
  exec net (V100.addVehicle cfg vehicleData) w = (w1, Threw e, tr1)
  ∧ localRows "vehicles" w1 = localRows "vehicles" w ++ [newVehicle w vehicleData].
Proof.
  intros Hon Hurl Happ Hpost.
  assert (exec net (V100.addVehicle cfg vehicleData) w = (w1, Threw e, tr1)) as Hrun.
  { unfold exec in *.
    unfold V100.addVehicle, tryCatch, bind, takeId, gets, modify, persist, ret.
    cbn -[V100.makeApiRequest]. rewrite Happ. cbn -[V100.makeApiRequest].
    change (<["last_updated":=_]> _) with (newVehicle w vehicleData).
    rewrite (localRows_APP "vehicles" w (dropEntropy w)) by done.
    rewrite Hon. unfold configured. cbn -[V100.makeApiRequest].
    destruct (String.eqb_spec (webAppUrl w) "") as [?|_]; [done|].
    cbn -[V100.makeApiRequest].
    change (<["last_updated":=_]> _) with (newVehicle w vehicleData).
    rewrite run_catchTask, !run_bindTask, Hpost. done. }
  split; [done|].
  pose proof (addVehicle_store_100 cfg net vehicleData w a Happ) as Hstore.
  by rewrite Hrun in Hstore.
Qed.

Lemma addVehicle_100_rejects_keeps_witness :
  exec netDown (V100.addVehicle GOOGLE_CONFIG fordF150) demoWorld
    = ((exec netDown (V100.addVehicle GOOGLE_CONFIG fordF150) demoWorld).1.1,
       Threw (ErrHttp 503 "Service Unavailable"),
       (exec netDown (V100.addVehicle GOOGLE_CONFIG fordF150) demoWorld).2)
  ∧ localRows "vehicles" (exec netDown (V100.addVehicle GOOGLE_CONFIG fordF150) demoWorld).1.1
    = localRows "vehicles" demoWorld ++ [newVehicle demoWorld fordF150].
Proof.
  apply (addVehicle_100_rejects_keeps GOOGLE_CONFIG netDown fordF150 demoWorld demoApp).
  - reflexivity.
  - discriminate.
  - reflexivity.
  - vm_compute. reflexivity.
Defined.

(** ** Backend ([code.gs]): the request router and the stores by key *)

Module Router.
Import CodeGs.

(** The spreadsheet: [getSheetByName] of the four sheets, [None] (null)
    for a sheet that was never set up.  [getValues] returns a rectangle:
    every row has one cell per column. *)
Record Spreadsheet : Type := mkSpreadsheet {
  vehiclesSheet : option Sheet;
  maintenanceSheet : option Sheet;
  receiptsSheet : option Sheet;
  remindersSheet : option Sheet
}.

(** What the handlers throw. *)
Inductive GsError : Type :=
| NotFound (message : string)
| NotImplemented (message : string)
| NullSheet.

(** The [data] of a response. *)
Inductive Payload : Type :=
| PRecord (r : record)
| PRow (o : option (gmap string cell))
| PRows (l : list (gmap string cell))
| PSuccess
| PError (message : string)
| PCaught (e : GsError)
| PSync (vehicles maintenance receipts reminders : list (gmap string cell)) (timestamp : Z)
| PInstall (success : bool)
| PUrl (url : string).

Record Response : Type := mkResponse {
  data : Payload;
  status : Z
}.

(** [path.split('/').filter(part => part.length > 0)] *)
Fixpoint splitSlash (s : string) (part : string) : list string :=
  match s with
  | EmptyString => [part]
  | String c s' =>
      if Ascii.eqb c "/"%char then part :: splitSlash s' ""
      else splitSlash s' (part +:+ String c "")
  end.

Definition pathParts (path : string) : list string :=
  List.filter (λ part, negb (String.eqb part "")) (splitSlash path "").

(** [pathParts[n] || ''] *)
Definition partOr (parts : list string) (n : nat) : string := default "" (parts !! n).

(** [array.find(obj => obj[key] === id)] for a string [id]. *)
Definition findById (key id : string) (objs : list (gmap string cell))
  : option (gmap string cell) :=
  List.find (λ obj, bool_decide (obj !! key = Some (CellValue (VStr id)))) objs.

(** [headers.indexOf(name)]; [None] is [-1]. *)
Definition indexOf (name : string) (headers : list string) : option nat :=
  findIndex (λ h, String.eqb h name) headers.

(** The first data row whose cell in column [idIndex] is the string [id]. *)
Definition rowIndexOf (idIndex : option nat) (id : string) (rows : list (list cell))
  : option nat :=
  match idIndex with
  | Some col => findIndex (λ row, bool_decide (row !! col = Some (CellValue (VStr id)))) rows
  | None => None
  end.

(** The [forEach] of [updateVehicle] over the columns of the row. *)
Definition patchRow (headers : list string) (data : record) (row : list cell) : list cell :=
  imap (λ index c,
          match headers !! index with
          | Some h =>
              match data !! h with
              | Some v => if String.eqb h "vehicle_id" then c else CellValue v
              | None => c
              end
          | None => c
          end) row.

Section handlers.
(** [new Date(string)], [parseInt] and the upload to Drive belong to the
    platform. *)
Context (DateParse : string → option Z) (parseInt : string → option Z).
Context (uploadToGoogleDrive : value → value → option value → option value → option string).

(** [params.since ? new Date(parseInt(params.since)) : null] *)
Definition sinceOf (since : option string) : option (option Z) :=
  match since with
  | None => None
  | Some s =>
      if String.eqb s "" then None
      else Some (n ← parseInt s; if Z.abs n <=? 8640000000000000 then Some n else None)
  end.

Definition getVehicleById (sheet : Sheet) (id : string) : option (gmap string cell) :=
  findById "vehicle_id" id (getAllVehicles DateParse sheet None).

Definition getMaintenanceById (sheet : Sheet) (id : string) : option (gmap string cell) :=
  findById "log_id" id (getAllMaintenance DateParse sheet None).

Definition getReceiptById (sheet : Sheet) (id : string) : option (gmap string cell) :=
  findById "receipt_id" id (getAllReceipts DateParse sheet None).

Definition updateVehicle (sheet : Sheet) (id : string) (data : record) (now : Z)
  : GsError + Sheet * gmap string cell :=
  match rowIndexOf (indexOf "vehicle_id" (header sheet)) id (rows sheet) with
  | Some i =>
      let row := default [] (rows sheet !! i) in
      let patched := patchRow (header sheet) data row in
      let stamped :=
        match indexOf "last_updated" (header sheet) with
        | Some col => <[col := CellValue (VStr (toISOString now))]> patched
        | None => patched
        end in
      inr ({| header := header sheet; rows := <[i := stamped]> (rows sheet) |},
           rowObject (header sheet) stamped ∅)
  | None => inl (NotFound "Vehicle not found")
  end.

Definition deleteVehicle (sheet : Sheet) (id : string) : GsError + Sheet :=
  match rowIndexOf (indexOf "vehicle_id" (header sheet)) id (rows sheet) with
  | Some i => inr {| header := header sheet; rows := delete i (rows sheet) |}
  | None => inl (NotFound "Vehicle not found")
  end.

Definition updateMaintenance (sheet : Sheet) (id : string) (data : record)
  : GsError + Sheet * gmap string cell :=
  inl (NotImplemented "Update maintenance not implemented yet").

Definition deleteMaintenance (sheet : Sheet) (id : string) : GsError + Sheet :=
  inl (NotImplemented "Delete maintenance not implemented yet").

Definition updateReceipt (sheet : Sheet) (id : string) (data : record)
  : GsError + Sheet * gmap string cell :=
  inl (NotImplemented "Update receipt not implemented yet").

Definition deleteReceipt (sheet : Sheet) (id : string) : GsError + Sheet :=
  inl (NotImplemented "Delete receipt not implemented yet").

(** A handler's outcome: thrown, or the sheet after it and the response. *)
Definition Handled : Type := GsError + option Sheet * Response.

Definition respond (sheet : option Sheet) (d : Payload) (code : Z) : Handled :=
  inr (sheet, {| data := d; status := code |}).

(** A use of the sheet: a [TypeError] when it is null. *)
Definition withSheet (sheet : option Sheet) (f : Sheet → Handled) : Handled :=
  match sheet with
  | Some sh => f sh
  | None => inl NullSheet
  end.

Definition handleVehicles (sheet : option Sheet) (method id : string)
    (since : option string) (body : option record) (uuid : string) (now : Z) : Handled :=
  if String.eqb method "GET" then
    if negb (String.eqb id "") then
      withSheet sheet (λ sh, respond sheet (PRow (getVehicleById sh id)) 200)
    else
      withSheet sheet (λ sh,
        respond sheet (PRows (getAllVehicles DateParse sh (sinceOf since))) 200)
  else if String.eqb method "POST" then
    match body with
    | None => respond sheet (PError "No data provided") 400
    | Some d =>
        withSheet sheet (λ sh,
          let '(sh', newVehicle) := addVehicle sh d uuid now in
          respond (Some sh') (PRecord newVehicle) 201)
    end
  else if String.eqb method "PUT" then
    match body with
    | Some d =>
        if String.eqb id "" then respond sheet (PError "ID and data required") 400
        else
          withSheet sheet (λ sh,
            match updateVehicle sh id d now with
            | inl e => inl e
            | inr (sh', updatedVehicle) => respond (Some sh') (PRow (Some updatedVehicle)) 200
            end)
    | None => respond sheet (PError "ID and data required") 400
    end
  else if String.eqb method "DELETE" then
    if String.eqb id "" then respond sheet (PError "ID required") 400
    else
      withSheet sheet (λ sh,
        match deleteVehicle sh id with
        | inl e => inl e
        | inr sh' => respond (Some sh') PSuccess 200
        end)
  else respond sheet (PError "Method not allowed") 405.

Definition handleMaintenance (sheet : option Sheet) (method id : string)
    (since : option string) (body : option record) (uuid : string) (now : Z) : Handled :=
  if String.eqb method "GET" then
    if negb (String.eqb id "") then
      withSheet sheet (λ sh, respond sheet (PRow (getMaintenanceById sh id)) 200)
    else
      withSheet sheet (λ sh,
        respond sheet (PRows (getAllMaintenance DateParse sh (sinceOf since))) 200)
  else if String.eqb method "POST" then
    match body with
    | None => respond sheet (PError "No data provided") 400
    | Some d =>
        withSheet sheet (λ sh,
          let '(sh', newRecord) := addMaintenance sh d uuid now in
          respond (Some sh') (PRecord newRecord) 201)
    end
  else if String.eqb method "PUT" then
    match body with
    | Some d =>
        if String.eqb id "" then respond sheet (PError "ID and data required") 400
        else
          match updateMaintenance (default {| header := []; rows := [] |} sheet) id d with
          | inl e => inl e
          | inr (sh', updatedRecord) => respond (Some sh') (PRow (Some updatedRecord)) 200
          end
    | None => respond sheet (PError "ID and data required") 400
    end
  else if String.eqb method "DELETE" then
    if String.eqb id "" then respond sheet (PError "ID required") 400
    else
      match deleteMaintenance (default {| header := []; rows := [] |} sheet) id with
      | inl e => inl e
      | inr sh' => respond (Some sh') PSuccess 200
      end
  else respond sheet (PError "Method not allowed") 405.

Definition handleReceipts (sheet : option Sheet) (method id : string)
    (since : option string) (body : option record) (uuid : string) (now : Z) : Handled :=
  if String.eqb method "GET" then
    if negb (String.eqb id "") then
      withSheet sheet (λ sh, respond sheet (PRow (getReceiptById sh id)) 200)
    else
      withSheet sheet (λ sh,
        respond sheet (PRows (getAllReceipts DateParse sh (sinceOf since))) 200)
  else if String.eqb method "POST" then
    match body with
    | None => respond sheet (PError "No data provided") 400
    | Some d =>
        withSheet sheet (λ sh,
          let '(sh', newReceipt) := addReceipt sh d uuid now in
          respond (Some sh') (PRecord newReceipt) 201)
    end
  else if String.eqb method "PUT" then
    match body with
    | Some d =>
        if String.eqb id "" then respond sheet (PError "ID and data required") 400
        else
          match updateReceipt (default {| header := []; rows := [] |} sheet) id d with
          | inl e => inl e
          | inr (sh', updatedReceipt) => respond (Some sh') (PRow (Some updatedReceipt)) 200
          end
    | None => respond sheet (PError "ID and data required") 400
    end
  else if String.eqb method "DELETE" then
    if String.eqb id "" then respond sheet (PError "ID required") 400
    else
      match deleteReceipt (default {| header := []; rows := [] |} sheet) id with
      | inl e => inl e
      | inr sh' => respond (Some sh') PSuccess 200
      end
  else respond sheet (PError "Method not allowed") 405.

Definition handleReminders (sheet : option Sheet) (method : string)
    (since : option string) (body : option record) (uuid : string) (now : Z) : Handled :=
  if String.eqb method "GET" then
    withSheet sheet (λ sh,
      respond sheet (PRows (getAllReminders DateParse sh (sinceOf since))) 200)
  else if String.eqb method "POST" then
    match body with
    | None => respond sheet (PError "No data provided") 400
    | Some d =>
        withSheet sheet (λ sh,
          let '(sh', newReminder) := addReminder sh d uuid now in
          respond (Some sh') (PRecord newReminder) 201)
    end
  else respond sheet (PError "Method not allowed") 405.

Definition handleUpload (method : string) (body : option record) : Response :=
  if negb (String.eqb method "POST") then
    {| data := PError "Method not allowed"; status := 405 |}
  else
    match body with
    | Some d =>
        match d !! "filename", d !! "data" with
        | Some filename, Some content =>
            if truthy filename && truthy content then
              match uploadToGoogleDrive filename content (d !! "mimeType") (d !! "folder") with
              | Some fileUrl => {| data := PUrl fileUrl; status := 200 |}
              | None => {| data := PError "Upload failed"; status := 500 |}
              end
            else {| data := PError "Filename and data required"; status := 400 |}
        | _, _ => {| data := PError "Filename and data required"; status := 400 |}
        end
    | None => {| data := PError "Filename and data required"; status := 400 |}
    end.

Definition handleSync (ss : Spreadsheet) (method : string) (since : option string) (now : Z)
  : Response :=
  if negb (String.eqb method "GET") then
    {| data := PError "Method not allowed"; status := 405 |}
  else
    match vehiclesSheet ss, maintenanceSheet ss, receiptsSheet ss, remindersSheet ss with
    | Some v, Some m, Some r, Some rm =>
        {| data := PSync (getAllVehicles DateParse v (sinceOf since))
                         (getAllMaintenance DateParse m (sinceOf since))
                         (getAllReceipts DateParse r (sinceOf since))
                         (getAllReminders DateParse rm (sinceOf since)) now;
           status := 200 |}
    | _, _, _, _ => {| data := PError "Sync failed"; status := 500 |}
    end.

(** [setupSheets]: a missing sheet is inserted, an empty one gets its
    column names, any other is left alone. *)
Definition setupSheet (headers : list string) (sheet : option Sheet) : option Sheet :=
  match sheet with
  | None => Some {| header := headers; rows := [] |}
  | Some sh =>
      match header sh, rows sh with
      | [], [] => Some {| header := headers; rows := [] |}
      | _, _ => Some sh
      end
  end.

Definition onInstall (ss : Spreadsheet) : Spreadsheet :=
  {| vehiclesSheet := setupSheet vehicleHeaders (vehiclesSheet ss);
     maintenanceSheet := setupSheet maintenanceHeaders (maintenanceSheet ss);
     receiptsSheet := setupSheet receiptHeaders (receiptsSheet ss);
     remindersSheet := setupSheet reminderHeaders (remindersSheet ss) |}.

(** The [try]/[catch] of [routeRequest] around a handler. *)
Definition settleHandled (ss : Spreadsheet) (put : option Sheet → Spreadsheet) (h : Handled)
  : Spreadsheet * Response :=
  match h with
  | inr (sheet, response) => (put sheet, response)
  | inl e => (ss, {| data := PCaught e; status := 500 |})
  end.

Definition routeRequest (ss : Spreadsheet) (method path : string) (since : option string)
    (body : option record) (uuid : string) (now : Z) : Spreadsheet * Response :=
  let resource := partOr (pathParts path) 0 in
  let id := partOr (pathParts path) 1 in
  if String.eqb resource "vehicles" then
    settleHandled ss
      (λ sh, {| vehiclesSheet := sh; maintenanceSheet := maintenanceSheet ss;
                receiptsSheet := receiptsSheet ss; remindersSheet := remindersSheet ss |})
      (handleVehicles (vehiclesSheet ss) method id since body uuid now)
  else if String.eqb resource "maintenance" then
    settleHandled ss
      (λ sh, {| vehiclesSheet := vehiclesSheet ss; maintenanceSheet := sh;
                receiptsSheet := receiptsSheet ss; remindersSheet := remindersSheet ss |})
      (handleMaintenance (maintenanceSheet ss) method id since body uuid now)
  else if String.eqb resource "receipts" then
    settleHandled ss
      (λ sh, {| vehiclesSheet := vehiclesSheet ss; maintenanceSheet := maintenanceSheet ss;
                receiptsSheet := sh; remindersSheet := remindersSheet ss |})
      (handleReceipts (receiptsSheet ss) method id since body uuid now)
  else if String.eqb resource "reminders" then
    settleHandled ss
      (λ sh, {| vehiclesSheet := vehiclesSheet ss; maintenanceSheet := maintenanceSheet ss;
                receiptsSheet := receiptsSheet ss; remindersSheet := sh |})
      (handleReminders (remindersSheet ss) method since body uuid now)
  else if String.eqb resource "upload" then (ss, handleUpload method body)
  else if String.eqb resource "sync" then (ss, handleSync ss method since now)
  else if String.eqb resource "install" then
    (onInstall ss, {| data := PInstall true; status := 200 |})
  else (ss, {| data := PError "Invalid endpoint"; status := 404 |}).

End handlers.
End Router.
